(** * optimize-images.py: a shallow embedding and its properties

    The script converts raster images to lossy WebP, shrinking every image
    that is wider than a maximum width.  This development embeds its three
    functions ([optimize_image], [optimize_directory], [main]) together with
    the small part of pathlib, Pillow and the Python float that they call,
    and states the properties of the specification over that embedding.

    Conventions.
    - A Python [float] is an IEEE binary64 number: the Standard Library's
      [spec_float] at precision 53.
    - The file system is a finite map from paths to nodes; a path is the
      list of its components, resolved against one root.  It has no links
      and no permissions: a directory can be made wherever no regular file
      is in the way.
    - A Python [str] is the list of its code points, taken below 256.
    - Effects (file system, printed lines, standard input, raised
      exceptions) are threaded through the monad [M]. *)

From Stdlib Require Import ZArith Ascii String Floats.SpecFloat.
From stdpp Require Import base gmap strings list fin_maps.

Local Open Scope string_scope.
Local Open Scope list_scope.
Local Open Scope Z_scope.

(** ** Exceptions *)

Inductive exn :=
| ZeroDivisionError
| OverflowError
| ValueError
| EOFError
| FileExistsError
| FileNotFoundError
| NotADirectoryError
| IsADirectoryError
| UnidentifiedImageError
| SystemExit (code : Z).

(** [except Exception] catches everything but [SystemExit], which derives
    from [BaseException]. *)
Definition is_Exception (e : exn) : bool :=
  match e with SystemExit _ => false | _ => true end.

Definition is_ValueError (e : exn) : bool :=
  match e with ValueError => true | _ => false end.

Inductive outcome (A : Type) :=
| Ret (a : A)
| Raise (e : exn).
Arguments Ret {A} a.
Arguments Raise {A} e.

(** ** Python floats *)

Module Float64.

Definition prec : Z := 53.
Definition emax : Z := 1024.

(** [float(n)] for an integer [n]: the nearest float, and [OverflowError]
    for an integer beyond the range of the floats. *)
Definition of_int (n : Z) : outcome spec_float :=
  match binary_normalize prec emax n 0 false with
  | S754_infinity _ => Raise OverflowError
  | x => Ret x
  end.

(** An integer as an unrounded mantissa with exponent 0. *)
Definition unrounded (n : Z) : spec_float :=
  match n with
  | 0 => S754_zero false
  | Z.pos m => S754_finite false m 0
  | Z.neg m => S754_finite true m 0
  end.

(** [a / b] on two integers: true division, the exact quotient rounded
    once, and [OverflowError] when it is too large for a float. *)
Definition truediv (a b : Z) : outcome spec_float :=
  if b =? 0 then Raise ZeroDivisionError
  else match SFdiv prec emax (unrounded a) (unrounded b) with
       | S754_infinity _ => Raise OverflowError
       | x => Ret x
       end.

(** [n * x] for an integer [n] and a float [x]: [n] is converted first. *)
Definition int_mul (n : Z) (x : spec_float) : outcome spec_float :=
  match of_int n with
  | Ret f => Ret (SFmul prec emax f x)
  | Raise e => Raise e
  end.

(** [int(x)]: truncation towards zero. *)
Definition to_int (x : spec_float) : outcome Z :=
  match x with
  | S754_zero _ => Ret 0
  | S754_finite s m e =>
      let a := if 0 <=? e then Z.shiftl (Z.pos m) e else Z.shiftr (Z.pos m) (- e) in
      Ret (if s then - a else a)
  | S754_infinity _ => Raise OverflowError
  | S754_nan => Raise ValueError
  end.

End Float64.

(** ** Pillow images *)

Inductive mode := RGB | RGBA | LA | P | OTHER.

#[global] Instance mode_eq_dec : EqDecision mode.
Proof. solve_decision. Defined.

Definition rgb : Type := Z * Z * Z.
Definition rgba : Type := Z * Z * Z * Z.

(** The pixel buffer, tagged by the colour mode.  [PxOther] stands for every
    mode the script does not name (L, 1, CMYK, I, F, ...) and carries what
    [img.convert('RGB')] makes of it. *)
Inductive pixels :=
| PxRGB (px : Z → Z → rgb)
| PxRGBA (px : Z → Z → rgba)
| PxLA (px : Z → Z → Z * Z)
| PxP (palette : Z → rgba) (px : Z → Z → Z)
| PxOther (as_rgb : Z → Z → rgb).

Record image := Image { size : Z * Z; data : pixels }.

Definition mode_of (d : pixels) : mode :=
  match d with
  | PxRGB _ => RGB
  | PxRGBA _ => RGBA
  | PxLA _ => LA
  | PxP _ _ => P
  | PxOther _ => OTHER
  end.

Definition img_mode (img : image) : mode := mode_of (data img).

Definition white : rgb := (255, 255, 255).

(** [Image.new('RGB', size, colour)] *)
Definition Image_new_RGB (sz : Z * Z) (colour : rgb) : image :=
  Image sz (PxRGB (λ _ _, colour)).

(** [img.convert('RGB')]: alpha is dropped, palettes are looked up. *)
Definition rgb_of (d : pixels) : Z → Z → rgb :=
  match d with
  | PxRGB px => px
  | PxRGBA px => λ x y, let '(r, g, b, _) := px x y in (r, g, b)
  | PxLA px => λ x y, let '(l, _) := px x y in (l, l, l)
  | PxP palette px => λ x y, let '(r, g, b, _) := palette (px x y) in (r, g, b)
  | PxOther as_rgb => as_rgb
  end.

Definition convert_RGB (img : image) : image :=
  Image (size img) (PxRGB (rgb_of (data img))).

(** [img.convert('RGBA')]: a palette entry carries its transparency; modes
    without alpha become fully opaque. *)
Definition convert_RGBA (img : image) : image :=
  Image (size img)
    (PxRGBA match data img with
            | PxRGBA px => px
            | PxLA px => λ x y, let '(l, a) := px x y in (l, l, l, a)
            | PxP palette px => λ x y, palette (px x y)
            | d => λ x y, let '(r, g, b) := rgb_of d x y in (r, g, b, 255)
            end).

(** [img.split()[-1]]: the last band of the image. *)
Definition last_band (img : image) : Z → Z → Z :=
  match data img with
  | PxRGB px => λ x y, let '(_, _, b) := px x y in b
  | PxRGBA px => λ x y, let '(_, _, _, a) := px x y in a
  | PxLA px => λ x y, let '(_, a) := px x y in a
  | PxP _ px => px
  | PxOther as_rgb => λ x y, let '(_, _, b) := as_rgb x y in b
  end.

(** Pillow's 8-bit blend: [in1] weighted by [255 - mask], [in2] by [mask],
    divided by 255 with rounding. *)
Definition DIV255 (a : Z) : Z :=
  let tmp := a + 128 in Z.shiftr (Z.shiftr tmp 8 + tmp) 8.

Definition BLEND (mask in1 in2 : Z) : Z :=
  DIV255 (in1 * (255 - mask) + in2 * mask).

(** [background.paste(im, mask=mask)] on an RGB background.  Without a mask
    the colour bytes of [im] replace the background; with an 8-bit mask each
    channel is blended. *)
Definition paste (background im : image) (mask : option (Z → Z → Z)) : image :=
  let src := rgb_of (data im) in
  let bg := rgb_of (data background) in
  Image (size background)
    (PxRGB match mask with
           | None => src
           | Some m => λ x y,
               let '(r0, g0, b0) := bg x y in
               let '(r1, g1, b1) := src x y in
               let a := m x y in
               (BLEND a r0 r1, BLEND a g0 g1, BLEND a b0 b1)
           end).

(** Lines 44-52 of [optimize_image]: the buffer handed on is always RGB. *)
Definition normalise (img : image) : image :=
  if bool_decide (img_mode img ∈ [RGBA; LA; P]) then
    let background := Image_new_RGB (size img) white in
    let img := if bool_decide (img_mode img = P) then convert_RGBA img else img in
    paste background img
      (if bool_decide (img_mode img = RGBA) then Some (last_band img) else None)
  else if bool_decide (img_mode img ≠ RGB) then convert_RGB img
  else img.

(** ** pathlib *)

(** A path is the list of its components; [[]] is the root, which always
    exists and is a directory.  The file system below looks a path up
    component by component as it is written: it has no links, and it is
    meant for paths without [..] components (see [plain]), for which two
    different lists are two different places. *)
Abbreviation path := (list string).

Module Pathlib.

(** Components of a path written with [/]; empty and [.] components are
    dropped, as [Path(...)] does. *)
Fixpoint split_slash (s cur : string) : list string :=
  match s with
  | EmptyString => [cur]
  | String c s' =>
      if bool_decide (c = "/"%char) then cur :: split_slash s' ""
      else split_slash s' (cur +:+ String c "")
  end.

Definition Path (s : string) : path :=
  filter (λ c, c ≠ "" ∧ c ≠ ".") (split_slash s "").

Definition name (p : path) : string := default "" (last p).

Definition parent (p : path) : path := removelast p.

(** [s.rfind('.')]; [None] where Python answers -1. *)
Fixpoint rfind_dot (s : string) : option nat :=
  match s with
  | EmptyString => None
  | String c s' =>
      match rfind_dot s' with
      | Some i => Some (S i)
      | None => if bool_decide (c = "."%char) then Some 0%nat else None
      end
  end.

(** The test [0 < i < len(name) - 1] shared by [suffix] and [stem]. *)
Definition dot_index (nm : string) : option nat :=
  match rfind_dot nm with
  | Some i =>
      if bool_decide (0 < i ∧ i < String.length nm - 1)%nat then Some i else None
  | None => None
  end.

Definition suffix (nm : string) : string :=
  match dot_index nm with
  | Some i => substring i (String.length nm - i) nm
  | None => ""
  end.

Definition stem (nm : string) : string :=
  match dot_index nm with
  | Some i => substring 0 i nm
  | None => nm
  end.

End Pathlib.

(** A Python [str] is modelled by its code points, which are taken to lie
    below 256.  [str.lower()] there: the letters A-Z and, among the accented
    ones, 192-222 without the multiplication sign 215 move up by 32. *)
Definition lower_char (c : ascii) : ascii :=
  let n := nat_of_ascii c in
  if ((Nat.leb 65 n && Nat.leb n 90)
      || (Nat.leb 192 n && Nat.leb n 222 && negb (Nat.eqb n 215)))%bool
  then ascii_of_nat (n + 32) else c.

Fixpoint lower (s : string) : string :=
  match s with
  | EmptyString => EmptyString
  | String c s' => String (lower_char c) (lower s')
  end.

(** [str.isspace()] on one character: tab to carriage return (9-13), the
    separators 28-31, the space, the next-line control 133 and the
    no-break space 160. *)
Definition is_space (c : ascii) : bool :=
  let n := nat_of_ascii c in
  ((Nat.leb 9 n && Nat.leb n 13) || (Nat.leb 28 n && Nat.leb n 32)
   || Nat.eqb n 133 || Nat.eqb n 160)%bool.

Fixpoint lstrip (s : string) : string :=
  match s with
  | String c s' => if is_space c then lstrip s' else s
  | EmptyString => EmptyString
  end.

Fixpoint rstrip (s : string) : string :=
  match s with
  | String c s' =>
      match rstrip s' with
      | EmptyString => if is_space c then EmptyString else String c EmptyString
      | t => String c t
      end
  | EmptyString => EmptyString
  end.

Definition strip (s : string) : string := rstrip (lstrip s).

(** ** The world: file system, terminal and printed lines *)

(** What [Image.open] makes of a file.  [WebP img quality] is the file
    [img.save(..., 'WebP', quality=quality, method=6, lossless=False)]
    leaves behind: it decodes to [img] up to the encoder's quantisation. *)
Inductive content :=
| Picture (img : image)
| WebP (img : image) (quality : Z)
| Junk.

Inductive node :=
| Dir
| File (c : content).

(** The lines the script prints.  [Banner], [Usage] and [Found] each stand
    for a group of lines printed together (lines 140-143, 146-158 and
    121-126); [SizeReport] is the line of line 80, whose figures are byte
    counts the model does not keep; [Blank] is an empty [print()]. *)
Inductive event :=
| FileNotFound (p : path)
| Processing (nm : string)
| Resized (w h w' h' : Z)
| NoResizeNeeded (w h : Z)
| SizeReport
| Saved (p : path)
| Blank
| ErrorProcessing (nm : string) (e : exn)
| DirectoryNotFound (p : path)
| NoImagesFound (p : path)
| Found (n : nat) (input_dir : path) (output_dir : option string) (max_width quality : Z)
| Complete (success_count total : nat)
| Banner
| Usage
| InvalidWidth (s : string)
| InvalidQuality (s : string)
| UnknownArgument (s : string)
| PromptWidth
| InvalidInput
| NoWidthProvided
| NotAFileOrDirectory (p : path).

Record world := World {
  fs : gmap path node;
  stdout : list event;
  (** the lines still to be read from standard input *)
  stdin : list string;
  isatty : bool;
  (** instrumentation: the [input_path] of every [optimize_image] call *)
  calls : list path
}.

Definition set_fs (m : gmap path node) (w : world) : world :=
  World m (stdout w) (stdin w) (isatty w) (calls w).

Definition node_at (m : gmap path node) (p : path) : option node :=
  match p with
  | [] => Some Dir
  | _ => m !! p
  end.

Definition is_file_node (n : option node) : bool :=
  match n with Some (File _) => true | _ => false end.

Definition is_dir_node (n : option node) : bool :=
  match n with Some Dir => true | _ => false end.

(** ** The monad of the script: state and exceptions *)

Definition M (A : Type) : Type := world → outcome A * world.

#[global] Instance M_ret : MRet M := λ A a w, (Ret a, w).

#[global] Instance M_bind : MBind M := λ A B f m w,
  match m w with
  | (Ret a, w') => f a w'
  | (Raise e, w') => (Raise e, w')
  end.

Definition raise {A} (e : exn) : M A := λ w, (Raise e, w).

(** [try: body / except <catches>: handler] *)
Definition try_except {A} (body : M A) (catches : exn → bool) (handler : exn → M A) : M A :=
  λ w, match body w with
       | (Raise e, w') => if catches e then handler e w' else (Raise e, w')
       | r => r
       end.

Definition lift {A} (r : outcome A) : M A := λ w, (r, w).

Definition print (e : event) : M unit :=
  λ w, (Ret (), World (fs w) (stdout w ++ [e]) (stdin w) (isatty w) (calls w)).

Definition enter (p : path) : M unit :=
  λ w, (Ret (), World (fs w) (stdout w) (stdin w) (isatty w) (calls w ++ [p])).

Definition stat (p : path) : M (option node) := λ w, (Ret (node_at (fs w) p), w).

(** [input(prompt)] *)
Definition input : M string :=
  λ w, match stdin w with
       | [] => (Raise EOFError, w)
       | l :: rest => (Ret l, World (fs w) (stdout w) rest (isatty w) (calls w))
       end.

(** *** File-system operations *)

(** The non-empty prefixes of a path, shortest first. *)
Definition prefixes (p : path) : list path :=
  (λ n, take n p) <$> seq 1 (length p).

(** Is a regular file in the way of creating [d]? *)
Definition blocked (m : gmap path node) (d : path) : bool :=
  existsb (λ q, is_file_node (node_at m q)) (prefixes d).

Definition make_dirs (d : path) (m : gmap path node) : gmap path node :=
  foldr (λ q m, <[q := Dir]> m) m (prefixes d).

(** [d.mkdir(parents=True, exist_ok=True)]: fails, changing nothing, when
    [d] or one of its ancestors is a regular file; otherwise every missing
    directory on the way is created.  These are the failures of a file
    system in which the process may write everywhere; the errors of
    permissions, quotas and devices are not modelled. *)
Definition mkdir_parents (d : path) : M unit :=
  λ w, if is_file_node (node_at (fs w) d) then (Raise FileExistsError, w)
       else if blocked (fs w) d then (Raise NotADirectoryError, w)
       else (Ret (), set_fs (make_dirs d (fs w)) w).

(** [d.iterdir()] as a list, in the map's order. *)
Definition is_child (d p : path) : Prop := p ≠ [] ∧ Pathlib.parent p = d.

Definition iterdir (d : path) : M (list path) :=
  λ w, match node_at (fs w) d with
       | Some Dir => (Ret (filter (is_child d) (map_to_list (fs w)).*1), w)
       | _ => (Raise NotADirectoryError, w)
       end.

(** [Image.open(p)] together with the decoding it triggers. *)
Definition decode (n : option node) : outcome image :=
  match n with
  | Some (File (Picture img)) | Some (File (WebP img _)) => Ret img
  | Some (File Junk) => Raise UnidentifiedImageError
  | Some Dir => Raise IsADirectoryError
  | None => Raise FileNotFoundError
  end.

Definition Image_open (p : path) : M image :=
  λ w, (decode (node_at (fs w) p), w).

(** What the WebP encoder accepts: no side beyond 16383 pixels and a
    quality from 0 to 100. *)
Definition webp_encodable (img : image) (quality : Z) : bool :=
  ((size img).1 <=? 16383) && ((size img).2 <=? 16383)
  && (0 <=? quality) && (quality <=? 100).

(** A file opened for writing and closed without a byte written: a file
    that was there is empty afterwards. *)
Definition truncated (p : path) (m : gmap path node) : gmap path node :=
  if is_file_node (node_at m p) then <[p := File Junk]> m else m.

(** [img.save(p, 'WebP', quality=quality, method=6, lossless=False)]: the
    file is opened for writing, then the image is encoded.  When the
    encoder refuses, Pillow removes the file if the opening created it, so
    only a file that was there before is left, emptied. *)
Definition save (img : image) (p : path) (quality : Z) : M unit :=
  λ w, if is_dir_node (node_at (fs w) p) then (Raise IsADirectoryError, w)
       else if webp_encodable img quality
       then (Ret (), set_fs (<[p := File (WebP img quality)]> (fs w)) w)
       else (Raise ValueError, set_fs (truncated p (fs w)) w).

(** ** The script *)

Definition supported_formats : gset string :=
  {[ ".png"; ".jpg"; ".jpeg"; ".gif"; ".bmp"; ".tiff"; ".webp" ]}.

(** The truth value of the [output_dir] argument: [None] and the empty
    string select the input's directory. *)
Definition given (output_dir : option string) : option path :=
  match output_dir with
  | Some s => if bool_decide (s = "") then None else Some (Pathlib.Path s)
  | None => None
  end.

(** Line 37: [output_dir / f"{input_path.stem}.webp"] *)
Definition webp_path (output_dir input_path : path) : path :=
  output_dir ++ [Pathlib.stem (Pathlib.name input_path) +:+ ".webp"].

(** Lines 60-61: [ratio = max_width / original_width] and
    [new_height = int(original_height * ratio)], in floating point. *)
Definition scaled_height (max_width original_width original_height : Z) : outcome Z :=
  match Float64.truediv max_width original_width with
  | Ret ratio =>
      match Float64.int_mul original_height ratio with
      | Ret product => Float64.to_int product
      | Raise e => Raise e
      end
  | Raise e => Raise e
  end.

Section Script.

(** Pillow's Lanczos resampling of a buffer from one size to another. *)
Variable lanczos : pixels → Z * Z → Z * Z → pixels.

(** Python's [int(s)] on a string; [None] for [ValueError]. *)
Variable int_of_str : string → option Z.

(** [img.resize(sz, Image.Resampling.LANCZOS)] *)
Definition resize (img : image) (sz : Z * Z) : M image :=
  if ((sz.1 <? 1) || (sz.2 <? 1))%bool then raise ValueError
  else mret (Image sz (lanczos (data img) (size img) sz)).

(** Lines 58-65. *)
Definition resize_if_wider (img : image) (max_width : Z) : M image :=
  let '(original_width, original_height) := size img in
  if original_width >? max_width then
    new_height ← lift (scaled_height max_width original_width original_height);
    img ← resize img (max_width, new_height);
    print (Resized original_width original_height max_width new_height);;
    mret img
  else
    print (NoResizeNeeded original_width original_height);;
    mret img.

(** Lines 29-34: the directory the output goes to. *)
Definition set_output_directory (input_path : path) (output_dir : option string) : M path :=
  match given output_dir with
  | Some d => mkdir_parents d;; mret d
  | None => mret (Pathlib.parent input_path)
  end.

(** Lines 40-84: the body of the [try]. *)
Definition convert_and_save (input_path output_path : path) (max_width quality : Z) : M bool :=
  print (Processing (Pathlib.name input_path));;
  img ← Image_open input_path;
  let img := normalise img in
  img ← resize_if_wider img max_width;
  save img output_path quality;;
  print SizeReport;;
  print (Saved output_path);;
  print Blank;;
  mret true.

Definition optimize_image (input_path : path) (output_dir : option string)
    (max_width quality : Z) : M bool :=
  enter input_path;;
  st ← stat input_path;
  if negb (bool_decide (is_Some st)) then
    print (FileNotFound input_path);;
    mret false
  else
    output_dir ← set_output_directory input_path output_dir;
    let output_path := webp_path output_dir input_path in
    try_except
      (convert_and_save input_path output_path max_width quality)
      is_Exception
      (λ e, print (ErrorProcessing (Pathlib.name input_path) e);;
            print Blank;;
            mret false).

(** Lines 112-115: the files of the directory with a supported suffix. *)
Definition is_image (m : gmap path node) (f : path) : bool :=
  is_file_node (node_at m f)
  && bool_decide (lower (Pathlib.suffix (Pathlib.name f)) ∈ supported_formats).

(** Lines 129-132. *)
Fixpoint for_each_image (images : list path) (output_dir : option string)
    (max_width quality : Z) (success_count : nat) : M nat :=
  match images with
  | [] => mret success_count
  | img_path :: rest =>
      ok ← optimize_image img_path output_dir max_width quality;
      for_each_image rest output_dir max_width quality
        (if ok : bool then S success_count else success_count)
  end.

Definition optimize_directory (input_dir : path) (output_dir : option string)
    (max_width quality : Z) : M unit :=
  st ← stat input_dir;
  if negb (bool_decide (is_Some st)) then
    print (DirectoryNotFound input_dir)
  else
    entries ← iterdir input_dir;
    w ← (λ w, (Ret w, w));
    let images := filter (λ f, is_image (fs w) f) entries in
    match images with
    | [] => print (NoImagesFound input_dir)
    | _ =>
        print (Found (length images) input_dir output_dir max_width quality);;
        success_count ← for_each_image images output_dir max_width quality 0%nat;
        print (Complete success_count (length images))
    end.

(** Lines 168-193: the option loop of [main]. *)
Fixpoint parse_options (args : list string) (output_dir : option string)
    (max_width : option Z) (quality : Z) : M (option string * option Z * Z) :=
  match args with
  | [] => mret (output_dir, max_width, quality)
  | arg :: rest =>
      match rest with
      | value :: rest' =>
          if bool_decide (arg = "--output") then
            parse_options rest' (Some value) max_width quality
          else if bool_decide (arg = "--width") then
            match int_of_str value with
            | Some n =>
                if n <=? 0 then print (InvalidWidth value);; raise (SystemExit 1)
                else parse_options rest' output_dir (Some n) quality
            | None => print (InvalidWidth value);; raise (SystemExit 1)
            end
          else if bool_decide (arg = "--quality") then
            match int_of_str value with
            | Some n =>
                if ((0 <=? n) && (n <=? 100))%bool
                then parse_options rest' output_dir max_width n
                else print (InvalidQuality value);; raise (SystemExit 1)
            | None => print (InvalidQuality value);; raise (SystemExit 1)
            end
          else
            print (UnknownArgument arg);;
            parse_options rest output_dir max_width quality
      | [] =>
          print (UnknownArgument arg);;
          parse_options rest output_dir max_width quality
      end
  end.

(** Lines 196-208: the width when [--width] was not given. *)
Definition resolve_width (max_width : option Z) : M Z :=
  match max_width with
  | Some n => mret n
  | None =>
      w ← (λ w, (Ret w, w));
      if isatty w then
        print PromptWidth;;
        user_input ← input;
        let user_input := strip user_input in
        match (if bool_decide (user_input = "") then Some 300
               else int_of_str user_input) with
        | Some n => if n <=? 0 then print InvalidInput;; mret 300 else mret n
        | None => print InvalidInput;; mret 300
        end
      else
        print NoWidthProvided;;
        mret 300
  end.

Definition main (argv : list string) : M unit :=
  print Banner;;
  match argv with
  | _ :: arg1 :: options =>
      let input_path := Pathlib.Path arg1 in
      '(output_dir, max_width, quality) ← parse_options options None None 85;
      max_width ← resolve_width max_width;
      st ← stat input_path;
      if is_file_node st then
        optimize_image input_path output_dir max_width quality;;
        mret ()
      else if is_dir_node st then
        optimize_directory input_path output_dir max_width quality
      else
        print (NotAFileOrDirectory input_path);;
        raise (SystemExit 1)
  | _ =>
      print Usage;;
      raise (SystemExit 1)
  end.

End Script.

(** The exit status of the process after [main]: 0 on return, the code of
    [sys.exit], and 1 for an exception nobody caught. *)
Definition exit_status (r : outcome unit) : Z :=
  match r with
  | Ret _ => 0
  | Raise (SystemExit code) => code
  | Raise _ => 1
  end.

(** * Notions used to state the properties *)

(** [img.getpixel((x, y))] on an RGB image. *)
Definition getpixel (img : image) (x y : Z) : rgb := rgb_of (data img) x y.

(** One file system extends another when every node is kept and the only
    additions are directories. *)
Definition only_new_dirs (m m' : gmap path node) : Prop :=
  ∀ q, node_at m' q = node_at m q ∨ (node_at m q = None ∧ node_at m' q = Some Dir).




(** The node at [f] is kept, or [f] has become a new directory. *)
Definition stays (f : path) (m m' : gmap path node) : Prop :=
  node_at m' f = node_at m f ∨ (node_at m f = None ∧ node_at m' f = Some Dir).

(** The extensions of the specification, and what it is for a file name to
    have one of them whatever the case of its letters: the name is a
    non-empty base, a dot, and the extension spelled in capitals or small
    letters. *)
Definition extensions : list string :=
  ["png"; "jpg"; "jpeg"; "gif"; "bmp"; "tiff"; "webp"].

(** [c] is the small ASCII letter [l] or its capital. *)
Definition letter (l c : ascii) : Prop :=
  (97 ≤ nat_of_ascii l ∧ nat_of_ascii l ≤ 122)%nat
  ∧ (c = l ∨ nat_of_ascii c + 32 = nat_of_ascii l)%nat.

Fixpoint spells (word e : string) : Prop :=
  match word, e with
  | EmptyString, EmptyString => True
  | String l word', String c e' => letter l c ∧ spells word' e'
  | _, _ => False
  end.

Definition has_extension (nm ext : string) : Prop :=
  ∃ base e, nm = base +:+ "." +:+ e ∧ base ≠ "" ∧ spells ext e.

(** The code points below 256 that [str.strip()] removes: the blanks of
    ASCII (tab to carriage return, the four separators, the space), the
    next-line control and the no-break space. *)
Definition whitespace : list nat :=
  [9; 10; 11; 12; 13; 28; 29; 30; 31; 32; 133; 160]%nat.

Definition blank_char (c : ascii) : Prop := nat_of_ascii c ∈ whitespace.

(** Every character of [s] is white space. *)
Fixpoint blank (s : string) : Prop :=
  match s with
  | EmptyString => True
  | String c s' => blank_char c ∧ blank s'
  end.

(** [t] is [s] without the white space at its two ends. *)
Definition trimmed (s t : string) : Prop :=
  (∃ a b, s = a +:+ t +:+ b ∧ blank a ∧ blank b)
  ∧ (∀ c t', t = String c t' → ¬ blank_char c)
  ∧ (∀ t' c, t = t' +:+ String c "" → ¬ blank_char c).

(** The directory and the path the call resolves (lines 29-37). *)
Definition resolved_dir (input_path : path) (output_dir : option string) : path :=
  match given output_dir with
  | Some d => d
  | None => Pathlib.parent input_path
  end.

Definition output_path (input_path : path) (output_dir : option string) : path :=
  webp_path (resolved_dir input_path output_dir) input_path.

(** No regular file stands in the way of the output directory. *)
Definition creatable (m : gmap path node) (output_dir : option string) : Prop :=
  match given output_dir with
  | Some d => blocked m d = false
  | None => True
  end.

Definition after_mkdir (output_dir : option string) (m : gmap path node) : gmap path node :=
  match given output_dir with
  | Some d => make_dirs d m
  | None => m
  end.

Section Summary.

Variable lanczos : pixels → Z * Z → Z * Z → pixels.

(** The buffer lines 58-65 hand to the encoder, without the printing. *)
Definition resized (img : image) (mw : Z) : outcome image :=
  if (size img).1 >? mw then
    match scaled_height mw (size img).1 (size img).2 with
    | Ret nh =>
        if ((mw <? 1) || (nh <? 1))%bool then Raise ValueError
        else Ret (Image (mw, nh) (lanczos (data img) (size img) (mw, nh)))
    | Raise e => Raise e
    end
  else Ret img.

(** What the [try] block hands to the encoder on the file system [m]: the
    normalised, possibly resized buffer, once the output file is open. *)
Definition encoded (m : gmap path node) (p : path) (od : option string) (mw : Z) : outcome image :=
  match decode (node_at m p) with
  | Ret img =>
      match resized (normalise img) mw with
      | Ret img' =>
          if is_dir_node (node_at m (output_path p od)) then Raise IsADirectoryError
          else Ret img'
      | Raise e => Raise e
      end
  | Raise e => Raise e
  end.

(** The five ways a call can end. *)
Inductive transformed (p : path) (od : option string) (mw q : Z) (w : world) :
    outcome bool → world → Prop :=
| t_missing :
    node_at (fs w) p = None →
    transformed p od mw q w (Ret false)
      (World (fs w) (stdout w ++ [FileNotFound p]) (stdin w) (isatty w) (calls w ++ [p]))
| t_no_directory d e :
    is_Some (node_at (fs w) p) →
    given od = Some d →
    blocked (fs w) d = true →
    transformed p od mw q w (Raise e)
      (World (fs w) (stdout w) (stdin w) (isatty w) (calls w ++ [p]))
| t_failed e evs :
    is_Some (node_at (fs w) p) →
    creatable (fs w) od →
    encoded (after_mkdir od (fs w)) p od mw = Raise e →
    transformed p od mw q w (Ret false)
      (World (after_mkdir od (fs w))
         (stdout w ++ Processing (Pathlib.name p) :: evs
                   ++ [ErrorProcessing (Pathlib.name p) e; Blank])
         (stdin w) (isatty w) (calls w ++ [p]))
| t_refused img' evs :
    is_Some (node_at (fs w) p) →
    creatable (fs w) od →
    encoded (after_mkdir od (fs w)) p od mw = Ret img' →
    webp_encodable img' q = false →
    transformed p od mw q w (Ret false)
      (World (truncated (output_path p od) (after_mkdir od (fs w)))
         (stdout w ++ Processing (Pathlib.name p) :: evs
                   ++ [ErrorProcessing (Pathlib.name p) ValueError; Blank])
         (stdin w) (isatty w) (calls w ++ [p]))
| t_saved img' evs :
    is_Some (node_at (fs w) p) →
    creatable (fs w) od →
    encoded (after_mkdir od (fs w)) p od mw = Ret img' →
    webp_encodable img' q = true →
    transformed p od mw q w (Ret true)
      (World (<[output_path p od := File (WebP img' q)]> (after_mkdir od (fs w)))
         (stdout w ++ Processing (Pathlib.name p) :: evs
                   ++ [SizeReport; Saved (output_path p od); Blank])
         (stdin w) (isatty w) (calls w ++ [p])).

End Summary.

(** The list line 112 builds. *)
Definition candidates (m : gmap path node) (input_dir : path) : list path :=
  filter (λ f, is_image m f) (filter (is_child input_dir) (map_to_list m).*1).

(** ** Worlds to run the script on *)

(** A nearest-neighbour resampler and a reader of decimal numerals stand in
    for Pillow's filter and for [int] when the script is run on examples. *)
Definition nearest (d : pixels) (from to : Z * Z) : pixels :=
  let pick {A} (px : Z → Z → A) : Z → Z → A :=
    λ x y, px ((x * from.1) `div` to.1) ((y * from.2) `div` to.2) in
  match d with
  | PxRGB px => PxRGB (pick px)
  | PxRGBA px => PxRGBA (pick px)
  | PxLA px => PxLA (pick px)
  | PxP palette px => PxP palette (pick px)
  | PxOther px => PxOther (pick px)
  end.

Fixpoint digits (s : string) (acc : Z) : option Z :=
  match s with
  | EmptyString => Some acc
  | String c s' =>
      let n := Z.of_nat (nat_of_ascii c) in
      if ((48 <=? n) && (n <=? 57))%bool then digits s' (10 * acc + (n - 48)) else None
  end.

Definition decimal (s : string) : option Z :=
  if bool_decide (s = "") then None else digits s 0.

Definition solid (sz : Z * Z) (colour : rgb) : image := Image sz (PxRGB (λ _ _, colour)).

(** An empty terminal session over the file system [m]. *)
Definition session (m : gmap path node) : world := World m [] [] false [].

(** A 348x145 photograph, alone in the current directory. *)
Definition photo_world : world :=
  session {[ ["photo.png"] := File (Picture (solid (348, 145) (90, 120, 200))) ]}.

(** A 2x2 luminance-alpha image, black and fully transparent. *)
Definition logo_world : world :=
  session {[ ["logo.png"] := File (Picture (Image (2, 2) (PxLA (λ _ _, (0, 0))))) ]}.

(** A directory [in] with two pictures and some notes, a sub-directory
    with one more picture, a directory [docs] without pictures, and a
    regular file called [out]. *)
Definition batch_world : world :=
  session (<[ ["in"] := Dir ]>
          (<[ ["in"; "a.png"] := File (Picture (solid (200, 150) (1, 2, 3))) ]>
          (<[ ["in"; "b.JPG"] := File (Picture (solid (1200, 800) (4, 5, 6))) ]>
          (<[ ["in"; "notes.txt"] := File Junk ]>
          (<[ ["in"; "old.png"] := Dir ]>
          (<[ ["in"; "old.png"; "c.png"] := File (Picture (solid (10, 10) (7, 8, 9))) ]>
          (<[ ["docs"] := Dir ]>
          (<[ ["docs"; "readme.md"] := File Junk ]>
          (<[ ["out"] := File Junk ]> ∅))))))))).

(** A picture with an alpha channel: one opaque and one half-transparent
    pixel. *)
Definition translucent_px (x y : Z) : rgba :=
  if x =? 0 then (10, 20, 30, 255) else (200, 100, 50, 128).

Definition translucent : image := Image (2, 1) (PxRGBA translucent_px).

(** A directory [pics] at a terminal where a blank line and then a number
    are typed: a picture whose output path is taken by a directory, a very
    flat picture, a WebP file and a picture with an alpha channel. *)
Definition gallery_world : world :=
  World (<[ ["pics"] := Dir ]>
        (<[ ["pics"; "a.png"] := File (Picture (solid (200, 150) (1, 2, 3))) ]>
        (<[ ["pics"; "a.webp"] := Dir ]>
        (<[ ["pics"; "strip.png"] := File (Picture (solid (1200, 3) (4, 5, 6))) ]>
        (<[ ["pics"; "b.webp"] := File (WebP (solid (100, 100) (7, 8, 9)) 50) ]>
        (<[ ["pics"; "rgba.png"] := File (Picture translucent) ]> ∅))))))
    [] ["  "; "640"] true [].

(** * Properties *)

(** ** Colour normalisation *)

Section Normalise.

Implicit Types (img : image) (x y : Z).

Lemma normalise_size img : size (normalise img) = size img.
Proof.
  unfold normalise.
  repeat case_bool_decide; reflexivity.
Qed.

Lemma normalise_mode img : img_mode (normalise img) = RGB.
Proof.
  unfold normalise, img_mode.
  destruct img as [sz []]; reflexivity.
Qed.

Lemma DIV255_mul_255 c : 0 ≤ c ≤ 255 → DIV255 (c * 255) = c.
Proof.
  intros Hc. unfold DIV255.
  rewrite !Z.shiftr_div_pow2 by lia.
  change (2 ^ 8) with 256.
  pose proof (Z.div_mod (c * 255 + 128) 256 ltac:(lia)) as E1.
  pose proof (Z.mod_pos_bound (c * 255 + 128) 256 ltac:(lia)) as B1.
  set (q1 := (c * 255 + 128) `div` 256) in *.
  pose proof (Z.div_mod (q1 + (c * 255 + 128)) 256 ltac:(lia)) as E2.
  pose proof (Z.mod_pos_bound (q1 + (c * 255 + 128)) 256 ltac:(lia)) as B2.
  lia.
Qed.

Lemma BLEND_transparent c : BLEND 0 255 c = 255.
Proof. unfold BLEND. by rewrite Z.mul_0_r. Qed.

Lemma BLEND_opaque bg c : 0 ≤ c ≤ 255 → BLEND 255 bg c = c.
Proof.
  intros Hc. unfold BLEND.
  replace (bg * (255 - 255) + c * 255) with (c * 255) by lia.
  by apply DIV255_mul_255.
Qed.

(** The blend is the weighted mean of white and the colour, rounded to
    the nearest integer. *)
Lemma BLEND_white_linear a c :
  0 ≤ a ≤ 255 → 0 ≤ c ≤ 255 →
  - 127 ≤ 255 * BLEND a 255 c - (255 * (255 - a) + c * a) ≤ 127.
Proof.
  intros Ha Hc. unfold BLEND, DIV255.
  rewrite !Z.shiftr_div_pow2 by lia.
  change (2 ^ 8) with 256.
  set (n := 255 * (255 - a) + c * a).
  assert (Hn : 0 ≤ n ≤ 65025) by (unfold n; nia).
  clearbody n.
  pose proof (Z.div_mod (n + 128) 256 ltac:(lia)) as E1.
  pose proof (Z.mod_pos_bound (n + 128) 256 ltac:(lia)) as B1.
  set (q1 := (n + 128) `div` 256) in *.
  pose proof (Z.div_mod (q1 + (n + 128)) 256 ltac:(lia)) as E2.
  pose proof (Z.mod_pos_bound (q1 + (n + 128)) 256 ltac:(lia)) as B2.
  lia.
Qed.

(** RGBA: the alpha band is the paste mask. *)
Lemma normalise_RGBA sz px x y r g b a :
  px x y = (r, g, b, a) →
  getpixel (normalise (Image sz (PxRGBA px))) x y
  = (BLEND a 255 r, BLEND a 255 g, BLEND a 255 b).
Proof.
  intros E. unfold getpixel, normalise, last_band; simpl. by rewrite E.
Qed.

(** Palette: converted to RGBA first, then as above. *)
Lemma normalise_P sz palette px x y r g b a :
  palette (px x y) = (r, g, b, a) →
  getpixel (normalise (Image sz (PxP palette px))) x y
  = (BLEND a 255 r, BLEND a 255 g, BLEND a 255 b).
Proof.
  intros E. unfold getpixel, normalise, last_band; simpl. by rewrite E.
Qed.

(** Luminance with alpha: the paste gets no mask, so the alpha band plays
    no part in the result. *)
Lemma normalise_LA sz px x y l a :
  px x y = (l, a) →
  getpixel (normalise (Image sz (PxLA px))) x y = (l, l, l).
Proof.
  intros E. unfold getpixel, normalise, last_band; simpl. by rewrite E.
Qed.

Lemma normalise_RGB sz px : normalise (Image sz (PxRGB px)) = Image sz (PxRGB px).
Proof. reflexivity. Qed.

Lemma normalise_OTHER sz px : normalise (Image sz (PxOther px)) = Image sz (PxRGB px).
Proof. reflexivity. Qed.

End Normalise.

(** ** The file system *)

Section FileSystem.

Implicit Types (m : gmap path node) (d p q : path).

Lemma only_new_dirs_refl m : only_new_dirs m m.
Proof. by left. Qed.

Lemma elem_of_prefixes q d :
  q ∈ prefixes d ↔ ∃ n, (1 ≤ n ≤ length d)%nat ∧ q = take n d.
Proof.
  unfold prefixes. rewrite list_elem_of_fmap. split.
  - intros (n & -> & Hn). apply elem_of_seq in Hn. exists n. split; [lia | done].
  - intros (n & Hn & ->). exists n. split; [done |]. apply elem_of_seq. lia.
Qed.

Lemma prefixes_nonempty q d : q ∈ prefixes d → q ≠ [].
Proof.
  rewrite elem_of_prefixes. intros (n & Hn & ->) E.
  apply (f_equal length) in E. rewrite length_take in E. simpl in E. lia.
Qed.

Lemma prefixes_shorter q d : q ∈ prefixes d → (length q ≤ length d)%nat.
Proof.
  rewrite elem_of_prefixes. intros (n & Hn & ->). rewrite length_take. lia.
Qed.

Lemma self_prefix d : d ≠ [] → d ∈ prefixes d.
Proof.
  intros Hd. apply elem_of_prefixes. exists (length d). split.
  - destruct d; [done | simpl; lia].
  - by rewrite firstn_all.
Qed.

Lemma lookup_make_dirs d m q :
  make_dirs d m !! q = if decide (q ∈ prefixes d) then Some Dir else m !! q.
Proof.
  unfold make_dirs. induction (prefixes d) as [|a l IH]; cbn [foldr].
  - destruct (decide (q ∈ [])) as [H|_]; [by apply not_elem_of_nil in H | done].
  - destruct (decide (a = q)) as [->|Hne].
    + rewrite lookup_insert_eq, decide_True; [done | left].
    + rewrite lookup_insert_ne by done. rewrite IH.
      destruct (decide (q ∈ l)) as [Hin|Hin].
      * rewrite decide_True; [done | by right].
      * rewrite decide_False; [done |].
        intros [E|?]%elem_of_cons; [by subst | done].
Qed.

Lemma node_at_make_dirs d m q :
  node_at (make_dirs d m) q
  = if decide (q ∈ prefixes d) then Some Dir else node_at m q.
Proof.
  destruct q as [|c q]; simpl.
  - by destruct (decide _).
  - apply lookup_make_dirs.
Qed.

Lemma blocked_false m d q :
  blocked m d = false → q ∈ prefixes d → is_file_node (node_at m q) = false.
Proof.
  unfold blocked. intros Hb Hq.
  destruct (is_file_node (node_at m q)) eqn:E; [| done].
  assert (existsb (λ q, is_file_node (node_at m q)) (prefixes d) = true) as Ht.
  { apply existsb_exists. exists q. split; [by apply list_elem_of_In | done]. }
  congruence.
Qed.

Lemma blocked_false_intro m d :
  (∀ q, q ∈ prefixes d → is_file_node (node_at m q) = false) → blocked m d = false.
Proof.
  intros H. unfold blocked.
  destruct (existsb _ _) eqn:E; [| done].
  apply existsb_exists in E as (q & Hq%list_elem_of_In & Hf).
  rewrite (H q Hq) in Hf. done.
Qed.

(** Creating the directories of an unblocked path only adds directories. *)
Lemma make_dirs_only_new_dirs m d :
  blocked m d = false → only_new_dirs m (make_dirs d m).
Proof.
  intros Hb q. rewrite node_at_make_dirs.
  destruct (decide (q ∈ prefixes d)) as [Hq|Hq]; [| by left].
  pose proof (blocked_false _ _ _ Hb Hq) as Hf.
  destruct (node_at m q) as [[|c]|] eqn:E; simpl in Hf; [by left | done | by right].
Qed.

Lemma make_dirs_all_dirs m d q :
  q ∈ prefixes d → node_at (make_dirs d m) q = Some Dir.
Proof. intros Hq. rewrite node_at_make_dirs. by rewrite decide_True. Qed.

Lemma make_dirs_unblocked m d : blocked (make_dirs d m) d = false.
Proof.
  apply blocked_false_intro. intros q Hq.
  by rewrite make_dirs_all_dirs.
Qed.

Lemma node_at_insert m p n q :
  p ≠ [] → node_at (<[p := n]> m) q = if decide (p = q) then Some n else node_at m q.
Proof.
  intros Hp. destruct q as [|c q]; simpl.
  - by rewrite decide_False.
  - rewrite lookup_insert. by destruct (decide _).
Qed.

Lemma webp_path_nonempty d p : webp_path d p ≠ [].
Proof. unfold webp_path. by destruct d. Qed.

Lemma webp_path_not_prefix d p : webp_path d p ∉ prefixes d.
Proof.
  intros H%prefixes_shorter. unfold webp_path in H.
  rewrite length_app in H. simpl in H. lia.
Qed.

(** Writing the output file never puts a file in the way of its own
    directory. *)
Lemma insert_webp_unblocked m d p n :
  blocked m d = false → blocked (<[webp_path d p := n]> m) d = false.
Proof.
  intros Hb. apply blocked_false_intro. intros q Hq.
  rewrite node_at_insert by apply webp_path_nonempty.
  rewrite decide_False.
  - by apply (blocked_false m d).
  - intros <-. by apply (webp_path_not_prefix d p).
Qed.

End FileSystem.

(** ** One call of [optimize_image] *)

Section Transform.

Variable lanczos : pixels → Z * Z → Z * Z → pixels.

Implicit Types (p : path) (od : option string) (mw q : Z) (w : world).

Lemma blocked_of_file m d : is_file_node (node_at m d) = true → blocked m d = true.
Proof.
  intros Hf. destruct (blocked m d) eqn:Hb; [done |].
  destruct d as [|c d]; [done |].
  rewrite (blocked_false _ _ _ Hb (self_prefix (c :: d) ltac:(done))) in Hf. done.
Qed.

Lemma resize_if_wider_run img mw w :
  match resized lanczos img mw with
  | Ret img' => ∃ ev, resize_if_wider lanczos img mw w
                      = (Ret img', World (fs w) (stdout w ++ [ev]) (stdin w) (isatty w) (calls w))
  | Raise e => resize_if_wider lanczos img mw w = (Raise e, w)
  end.
Proof.
  unfold resized, resize_if_wider. destruct img as [[ow oh] d]; simpl.
  destruct (ow >? mw); [| by eexists].
  unfold mbind, M_bind, lift. destruct (scaled_height mw ow oh) as [nh|e]; [| done].
  unfold resize; simpl.
  destruct ((mw <? 1) || (nh <? 1))%bool; [done | by eexists].
Qed.

Lemma convert_and_save_run p out mw q w :
  match decode (node_at (fs w) p) with
  | Ret img =>
      match resized lanczos (normalise img) mw with
      | Ret img' =>
          if is_dir_node (node_at (fs w) out) then
            ∃ evs, convert_and_save lanczos p out mw q w
                   = (Raise IsADirectoryError,
                      World (fs w) (stdout w ++ Processing (Pathlib.name p) :: evs)
                        (stdin w) (isatty w) (calls w))
          else if webp_encodable img' q then
            ∃ evs, convert_and_save lanczos p out mw q w
                   = (Ret true,
                      World (<[out := File (WebP img' q)]> (fs w))
                        (stdout w ++ Processing (Pathlib.name p) :: evs
                                  ++ [SizeReport; Saved out; Blank])
                        (stdin w) (isatty w) (calls w))
          else
            ∃ evs, convert_and_save lanczos p out mw q w
                   = (Raise ValueError,
                      World (truncated out (fs w))
                        (stdout w ++ Processing (Pathlib.name p) :: evs)
                        (stdin w) (isatty w) (calls w))
      | Raise e =>
          convert_and_save lanczos p out mw q w
          = (Raise e, World (fs w) (stdout w ++ [Processing (Pathlib.name p)])
                        (stdin w) (isatty w) (calls w))
      end
  | Raise e =>
      convert_and_save lanczos p out mw q w
      = (Raise e, World (fs w) (stdout w ++ [Processing (Pathlib.name p)])
                    (stdin w) (isatty w) (calls w))
  end.
Proof.
  unfold convert_and_save, Image_open, save, print.
  unfold mbind, M_bind, mret, M_ret; simpl.
  destruct (decode (node_at (fs w) p)) as [img|e]; [| done].
  pose proof (resize_if_wider_run (normalise img) mw
    (World (fs w) (stdout w ++ [Processing (Pathlib.name p)]) (stdin w) (isatty w) (calls w))) as Hr.
  destruct (resized lanczos (normalise img) mw) as [img'|e].
  - destruct Hr as [ev Hr]. rewrite Hr; simpl.
    destruct (is_dir_node (node_at (fs w) out)).
    + exists [ev]. by rewrite <- app_assoc.
    + destruct (webp_encodable img' q).
      * exists [ev]. unfold set_fs; simpl. by rewrite <- !app_assoc.
      * exists [ev]. unfold set_fs; simpl. by rewrite <- !app_assoc.
  - by rewrite Hr.
Qed.

Lemma decode_Exception n e : decode n = Raise e → is_Exception e = true.
Proof. destruct n as [[|[]]|]; simpl; intros [= <-]; done. Qed.

Lemma scaled_height_Exception mw ow oh e :
  scaled_height mw ow oh = Raise e → is_Exception e = true.
Proof.
  unfold scaled_height, Float64.truediv, Float64.int_mul, Float64.of_int, Float64.to_int.
  destruct (ow =? 0); [by intros [= <-] |].
  destruct (SFdiv _ _ _ _); try (by intros [= <-]);
    destruct (binary_normalize _ _ _ _ _); try (by intros [= <-]);
    destruct (SFmul _ _ _ _); by intros [= <-].
Qed.

Lemma resized_Exception img mw e : resized lanczos img mw = Raise e → is_Exception e = true.
Proof.
  unfold resized. destruct (_ >? _); [| done].
  destruct (scaled_height _ _ _) as [nh|e'] eqn:E.
  - destruct (_ || _)%bool; [by intros [= <-] | done].
  - intros [= <-]. by eapply scaled_height_Exception.
Qed.

Lemma encoded_Exception m p od mw e : encoded lanczos m p od mw = Raise e → is_Exception e = true.
Proof.
  unfold encoded. destruct (decode _) as [img|e'] eqn:E.
  - destruct (resized lanczos _ _) as [img'|e''] eqn:E'.
    + destruct (is_dir_node _); [by intros [= <-] | done].
    + intros [= <-]. by eapply resized_Exception.
  - intros [= <-]. by eapply decode_Exception.
Qed.

Lemma try_run p od mw q w :
  match encoded lanczos (fs w) p od mw with
  | Ret img' =>
      if webp_encodable img' q then
        ∃ evs, try_except (convert_and_save lanczos p (output_path p od) mw q) is_Exception
                 (λ e, print (ErrorProcessing (Pathlib.name p) e);; print Blank;; mret false) w
               = (Ret true,
                  World (<[output_path p od := File (WebP img' q)]> (fs w))
                    (stdout w ++ Processing (Pathlib.name p) :: evs
                              ++ [SizeReport; Saved (output_path p od); Blank])
                    (stdin w) (isatty w) (calls w))
      else
        ∃ evs, try_except (convert_and_save lanczos p (output_path p od) mw q) is_Exception
                 (λ e, print (ErrorProcessing (Pathlib.name p) e);; print Blank;; mret false) w
               = (Ret false,
                  World (truncated (output_path p od) (fs w))
                    (stdout w ++ Processing (Pathlib.name p) :: evs
                              ++ [ErrorProcessing (Pathlib.name p) ValueError; Blank])
                    (stdin w) (isatty w) (calls w))
  | Raise e =>
      ∃ evs, try_except (convert_and_save lanczos p (output_path p od) mw q) is_Exception
               (λ e, print (ErrorProcessing (Pathlib.name p) e);; print Blank;; mret false) w
             = (Ret false,
                World (fs w)
                  (stdout w ++ Processing (Pathlib.name p) :: evs
                            ++ [ErrorProcessing (Pathlib.name p) e; Blank])
                  (stdin w) (isatty w) (calls w))
  end.
Proof.
  pose proof (convert_and_save_run p (output_path p od) mw q w) as Hrun.
  pose proof (encoded_Exception (fs w) p od mw) as Hexn.
  unfold encoded in *. unfold try_except.
  destruct (decode (node_at (fs w) p)) as [img|e].
  - destruct (resized lanczos (normalise img) mw) as [img'|e].
    + destruct (is_dir_node (node_at (fs w) (output_path p od))).
      * destruct Hrun as [evs ->]. exists evs.
        unfold print, mbind, M_bind, mret, M_ret; simpl.
        by rewrite <- !app_assoc.
      * destruct (webp_encodable img' q).
        -- destruct Hrun as [evs ->]. exists evs. reflexivity.
        -- destruct Hrun as [evs ->]. exists evs.
           unfold print, mbind, M_bind, mret, M_ret; simpl.
           by rewrite <- !app_assoc.
    + rewrite Hrun, (Hexn e eq_refl). exists [].
      unfold print, mbind, M_bind, mret, M_ret; simpl.
      by rewrite <- !app_assoc.
  - rewrite Hrun, (Hexn e eq_refl). exists [].
    unfold print, mbind, M_bind, mret, M_ret; simpl.
    by rewrite <- !app_assoc.
Qed.

Lemma optimize_image_transformed p od mw q w :
  ∃ r w', optimize_image lanczos p od mw q w = (r, w') ∧ transformed lanczos p od mw q w r w'.
Proof.
  unfold optimize_image, enter, stat.
  unfold mbind at 1 2, M_bind at 1 2; simpl.
  destruct (node_at (fs w) p) as [n|] eqn:Hp.
  2: { rewrite bool_decide_false by (by intros [? ?]). simpl.
       do 2 eexists. split; [reflexivity | by constructor]. }
  rewrite bool_decide_true by eauto. simpl.
  assert (Hsome : is_Some (node_at (fs w) p)) by (rewrite Hp; eauto).
  set (w1 := World (fs w) (stdout w) (stdin w) (isatty w) (calls w ++ [p])).
  assert (Hdir : ∀ w2, fs w2 = after_mkdir od (fs w) → stdout w2 = stdout w →
                       stdin w2 = stdin w → isatty w2 = isatty w →
                       calls w2 = calls w ++ [p] → creatable (fs w) od →
            ∃ r w',
              try_except (convert_and_save lanczos p (output_path p od) mw q) is_Exception
                (λ e, print (ErrorProcessing (Pathlib.name p) e);; print Blank;; mret false) w2
              = (r, w')
              ∧ transformed lanczos p od mw q w r w').
  { intros [m2 o2 i2 t2 c2]; simpl; intros -> -> -> -> -> Hc.
    pose proof (try_run p od mw q
      (World (after_mkdir od (fs w)) (stdout w) (stdin w) (isatty w) (calls w ++ [p]))) as Ht.
    simpl in Ht.
    destruct (encoded lanczos (after_mkdir od (fs w)) p od mw) as [img'|e] eqn:E;
      [destruct (webp_encodable img' q) eqn:Hq |];
      destruct Ht as [evs ->]; do 2 eexists; (split; [reflexivity |]).
    - by apply t_saved.
    - by eapply t_refused.
    - by apply t_failed. }
  unfold set_output_directory.
  unfold output_path, resolved_dir, creatable, after_mkdir in Hdir.
  destruct (given od) as [d|] eqn:Hg.
  - unfold mkdir_parents, mbind, M_bind, mret, M_ret; simpl.
    destruct (is_file_node (node_at (fs w) d)) eqn:Hf.
    { do 2 eexists. split; [reflexivity |].
      eapply t_no_directory; eauto using blocked_of_file. }
    destruct (blocked (fs w) d) eqn:Hb.
    { do 2 eexists. split; [reflexivity |]. eapply t_no_directory; eauto. }
    by apply Hdir.
  - unfold mbind, M_bind, mret, M_ret; simpl. by apply Hdir.
Qed.

End Transform.

(** *** What every call leaves behind *)

Section Frame.

Variable lanczos : pixels → Z * Z → Z * Z → pixels.

Implicit Types (p : path) (od : option string) (mw q : Z) (w : world).

Lemma only_new_dirs_existing m m' f :
  only_new_dirs m m' → is_Some (node_at m f) → node_at m' f = node_at m f.
Proof.
  intros H [n Hn]. destruct (H f) as [E|[E _]]; [done | congruence].
Qed.

Lemma after_mkdir_only_new_dirs od m :
  creatable m od → only_new_dirs m (after_mkdir od m).
Proof.
  unfold creatable, after_mkdir. destruct (given od) as [d|].
  - apply make_dirs_only_new_dirs.
  - intros _. apply only_new_dirs_refl.
Qed.

Lemma after_mkdir_creatable od m : creatable (after_mkdir od m) od.
Proof.
  unfold creatable, after_mkdir. destruct (given od) as [d|]; [| done].
  apply make_dirs_unblocked.
Qed.

Lemma insert_output_creatable p od m n :
  creatable m od → creatable (<[output_path p od := n]> m) od.
Proof.
  unfold creatable, output_path, resolved_dir.
  destruct (given od) as [d|]; [| done]. apply insert_webp_unblocked.
Qed.

Lemma output_path_nonempty p od : output_path p od ≠ [].
Proof. apply webp_path_nonempty. Qed.

Lemma truncated_creatable p od m :
  creatable m od → creatable (truncated (output_path p od) m) od.
Proof.
  unfold truncated. destruct (is_file_node _); [| done].
  apply insert_output_creatable.
Qed.

Lemma node_at_truncated_ne out m f :
  out ≠ [] → f ≠ out → node_at (truncated out m) f = node_at m f.
Proof.
  intros Hne Hf. unfold truncated. destruct (is_file_node _); [| done].
  rewrite node_at_insert by done. by rewrite decide_False.
Qed.

(** A refused save leaves a regular file where there was one and nothing
    where there was nothing. *)
Lemma node_at_truncated out m :
  out ≠ [] →
  node_at (truncated out m) out
  = if is_file_node (node_at m out) then Some (File Junk) else node_at m out.
Proof.
  intros Hne. unfold truncated. destruct (is_file_node _); [| done].
  rewrite node_at_insert by done. by rewrite decide_True.
Qed.

(** A call ends by raising exactly when the output directory cannot be
    created. *)
Lemma transformed_creatable p od mw q w r w' :
  transformed lanczos p od mw q w r w' →
  creatable (fs w) od → (∃ b, r = Ret b) ∧ creatable (fs w') od.
Proof.
  intros [Hp | d e Hp Hg Hb | e evs Hp Hc He | img' evs Hp Hc He Hq
          | img' evs Hp Hc He Hq] Hok; simpl.
  - eauto.
  - unfold creatable in Hok. rewrite Hg in Hok. congruence.
  - split; [eauto | apply after_mkdir_creatable].
  - split; [eauto |]. apply truncated_creatable, after_mkdir_creatable.
  - split; [eauto |]. apply insert_output_creatable, after_mkdir_creatable.
Qed.

Lemma transformed_calls p od mw q w r w' :
  transformed lanczos p od mw q w r w' → calls w' = calls w ++ [p].
Proof. by intros []. Qed.

(** Away from the output path a call only adds directories. *)
Lemma transformed_frame p od mw q w r w' f :
  transformed lanczos p od mw q w r w' →
  f ≠ output_path p od →
  node_at (fs w') f = node_at (fs w) f
  ∨ (node_at (fs w) f = None ∧ node_at (fs w') f = Some Dir).
Proof.
  intros [Hp | d e Hp Hg Hb | e evs Hp Hc He | img' evs Hp Hc He Hq
          | img' evs Hp Hc He Hq] Hf; simpl.
  - by left.
  - by left.
  - by apply after_mkdir_only_new_dirs.
  - rewrite node_at_truncated_ne by (done || apply output_path_nonempty).
    by apply after_mkdir_only_new_dirs.
  - rewrite node_at_insert by apply output_path_nonempty.
    rewrite decide_False by done.
    by apply after_mkdir_only_new_dirs.
Qed.

End Frame.

(** ** The batch driver *)

Section Batch.

Variable lanczos : pixels → Z * Z → Z * Z → pixels.

Implicit Types (p : path) (od : option string) (mw q : Z) (w : world).

Lemma elem_of_candidates m dir f :
  f ∈ candidates m dir ↔
    is_child dir f
    ∧ (∃ c, m !! f = Some (File c))
    ∧ lower (Pathlib.suffix (Pathlib.name f)) ∈ supported_formats.
Proof.
  unfold candidates, is_image.
  rewrite !list_elem_of_filter, list_elem_of_fmap. split.
  - intros (Himg & Hch & [f' n] & -> & Hin). simpl in *.
    apply elem_of_map_to_list in Hin.
    apply andb_prop_elim in Himg as [Hfile Hext].
    apply bool_decide_unpack in Hext.
    split; [done |]. split; [| done].
    destruct Hch as [Hne _]. destruct f' as [|c f']; [done |].
    simpl in Hfile. rewrite Hin in Hfile. destruct n as [|c']; [done | eauto].
  - intros (Hch & [c Hc] & Hext). split; [| split; [done |]].
    + apply andb_prop_intro. split.
      * destruct Hch as [Hne _]. destruct f as [|c' f]; [done |].
        simpl. by rewrite Hc.
      * by apply bool_decide_pack.
    + exists (f, File c). split; [done |]. by apply elem_of_map_to_list.
Qed.

Lemma NoDup_candidates m dir : NoDup (candidates m dir).
Proof.
  unfold candidates. do 2 apply NoDup_filter. apply NoDup_fst_map_to_list.
Qed.

(** The loop attempts every image, whatever happens to the ones before,
    as long as the output directory can be created. *)
Lemma for_each_image_run images od mw q k w :
  creatable (fs w) od →
  ∃ k' w', for_each_image lanczos images od mw q k w = (Ret k', w')
           ∧ calls w' = calls w ++ images
           ∧ creatable (fs w') od
           ∧ (k ≤ k' ≤ k + length images)%nat.
Proof.
  revert k w. induction images as [|f images IH]; intros k w Hc; simpl.
  - exists k, w. rewrite app_nil_r. repeat split; [done | lia..].
  - destruct (optimize_image_transformed lanczos f od mw q w) as (r & w1 & Hrun & Ht).
    destruct (transformed_creatable _ _ _ _ _ _ _ _ Ht Hc) as [[b ->] Hc1].
    unfold mbind, M_bind. rewrite Hrun.
    destruct (IH (if b then S k else k) w1 Hc1) as (k' & w' & -> & Hcalls & Hc' & Hk).
    exists k', w'. repeat split; [| done | destruct b; lia..].
    rewrite Hcalls, (transformed_calls _ _ _ _ _ _ _ _ Ht).
    by rewrite <- app_assoc.
Qed.

Lemma optimize_directory_run dir od mw q w :
  node_at (fs w) dir = Some Dir →
  creatable (fs w) od →
  ∃ w', optimize_directory lanczos dir od mw q w = (Ret (), w')
        ∧ calls w' = calls w ++ candidates (fs w) dir
        ∧ (candidates (fs w) dir = [] →
           w' = World (fs w) (stdout w ++ [NoImagesFound dir]) (stdin w) (isatty w) (calls w)).
Proof.
  intros Hdir Hc. unfold optimize_directory, stat, iterdir, mbind, M_bind; simpl.
  rewrite Hdir. rewrite bool_decide_true by eauto. simpl.
  rewrite Hdir. fold (candidates (fs w) dir).
  destruct (candidates (fs w) dir) as [|f l] eqn:E.
  - eexists. split; [reflexivity |]. simpl. by rewrite app_nil_r.
  - rewrite <- E. unfold print at 1.
    set (w1 := World _ _ _ _ _).
    destruct (for_each_image_run (candidates (fs w) dir) od mw q 0%nat w1 Hc)
      as (k' & w' & Hrun & Hcalls & _).
    rewrite Hrun. simpl.
    eexists. split; [reflexivity |]. simpl. split; [done |].
    rewrite E. done.
Qed.

End Batch.

(** ** The command line *)

Section CommandLine.

Variable lanczos : pixels → Z * Z → Z * Z → pixels.
Variable int_of_str : string → option Z.

Implicit Types (w : world) (args : list string).

(** Reading the options touches neither the file system nor the images;
    it ends with the options or with [sys.exit(1)]. *)
Lemma parse_options_run args od mw q w :
  ∃ r w', parse_options int_of_str args od mw q w = (r, w')
          ∧ fs w' = fs w ∧ calls w' = calls w
          ∧ stdin w' = stdin w ∧ isatty w' = isatty w
          ∧ (r = Raise (SystemExit 1) ∨ ∃ v, r = Ret v).
Proof.
  remember (length args) as n eqn:Hn.
  assert (Hle : (length args ≤ n)%nat) by lia. clear Hn.
  revert args od mw q w Hle.
  induction n as [|n IH]; intros args od mw q w Hle.
  { destruct args; [| simpl in Hle; lia]. simpl. do 2 eexists. eauto 10. }
  destruct args as [|arg rest]; simpl.
  { do 2 eexists. eauto 10. }
  assert (Hskip : ∃ r w',
             (print (UnknownArgument arg);;
              parse_options int_of_str rest od mw q) w = (r, w')
             ∧ fs w' = fs w ∧ calls w' = calls w
             ∧ stdin w' = stdin w ∧ isatty w' = isatty w
             ∧ (r = Raise (SystemExit 1) ∨ ∃ v, r = Ret v)).
  { unfold print, mbind, M_bind.
    destruct (IH rest od mw q
                (World (fs w) (stdout w ++ [UnknownArgument arg]) (stdin w)
                   (isatty w) (calls w)) ltac:(simpl in Hle; lia))
      as (r & w' & Hrun & Hrest).
    exists r, w'. split; [exact Hrun | exact Hrest]. }
  destruct rest as [|value rest']; [exact Hskip |].
  simpl in Hle.
  assert (Hfail : ∀ ev, ∃ r w',
             (print ev;; raise (SystemExit 1) : M (option string * option Z * Z)) w = (r, w')
             ∧ fs w' = fs w ∧ calls w' = calls w
             ∧ stdin w' = stdin w ∧ isatty w' = isatty w
             ∧ (r = Raise (SystemExit 1) ∨ ∃ v, r = Ret v)).
  { intros ev. do 2 eexists. split; [reflexivity |]. simpl. eauto 10. }
  destruct (bool_decide (arg = "--output")); [apply IH; lia |].
  destruct (bool_decide (arg = "--width")).
  { destruct (int_of_str value) as [k|]; [| apply Hfail].
    destruct (k <=? 0); [apply Hfail | apply IH; lia]. }
  destruct (bool_decide (arg = "--quality")); [| exact Hskip].
  destruct (int_of_str value) as [k|]; [| apply Hfail].
  destruct ((0 <=? k) && (k <=? 100))%bool; [apply IH; lia | apply Hfail].
Qed.

Lemma resolve_width_run mw w :
  ∃ r w', resolve_width int_of_str mw w = (r, w')
          ∧ fs w' = fs w ∧ calls w' = calls w
          ∧ (r = Raise EOFError ∨ ∃ n, r = Ret n).
Proof.
  unfold resolve_width. destruct mw as [n|].
  { do 2 eexists. split; [reflexivity |]. eauto. }
  unfold mbind, M_bind, print, input; simpl.
  destruct (isatty w); [| do 2 eexists; split; [reflexivity |]; simpl; eauto].
  destruct (stdin w) as [|line rest]; simpl.
  { do 2 eexists. split; [reflexivity |]. simpl. eauto. }
  destruct (if bool_decide (strip line = "") then Some 300 else int_of_str (strip line))
    as [n|].
  - destruct (n <=? 0); do 2 eexists; (split; [reflexivity |]); simpl; eauto.
  - do 2 eexists. split; [reflexivity |]. simpl. eauto.
Qed.

(** A path that is neither a file nor a directory ends [main] with a
    nonzero status, the file system untouched. *)
Lemma main_missing prog s options w :
  node_at (fs w) (Pathlib.Path s) = None →
  ∃ r w', main lanczos int_of_str (prog :: s :: options) w = (r, w')
          ∧ exit_status r = 1 ∧ fs w' = fs w ∧ calls w' = calls w.
Proof.
  intros Hp. unfold main.
  unfold mbind at 1, M_bind at 1, print at 1.
  set (w0 := World _ _ _ _ _).
  destruct (parse_options_run options None None 85 w0)
    as (r1 & w1 & Hrun1 & Hfs1 & Hcalls1 & _ & _ & Hr1).
  unfold mbind at 1, M_bind at 1. rewrite Hrun1.
  destruct Hr1 as [-> | [[[od mw] q] ->]].
  { do 2 eexists. split; [reflexivity |]. by rewrite Hfs1, Hcalls1. }
  destruct (resolve_width_run mw w1) as (r2 & w2 & Hrun2 & Hfs2 & Hcalls2 & Hr2).
  unfold mbind at 1, M_bind at 1. rewrite Hrun2.
  destruct Hr2 as [-> | [n ->]].
  { do 2 eexists. split; [reflexivity |]. by rewrite Hfs2, Hcalls2, Hfs1, Hcalls1. }
  unfold stat, mbind at 1, M_bind at 1.
  rewrite Hfs2, Hfs1. change (fs w0) with (fs w). rewrite Hp. simpl.
  do 2 eexists. split; [reflexivity |]. simpl.
  by rewrite Hfs2, Hcalls2, Hfs1, Hcalls1.
Qed.

End CommandLine.

(** ** Names, stems and suffixes *)

Section Names.

Lemma append_nil_l (s : string) : "" +:+ s = s.
Proof. reflexivity. Qed.

Lemma append_cons (c : ascii) (a b : string) : String c a +:+ b = String c (a +:+ b).
Proof. reflexivity. Qed.

Lemma substring_all (s : string) : substring 0 (String.length s) s = s.
Proof. induction s as [|c s IH]; simpl; [done | by f_equal]. Qed.

Lemma substring_split (s : string) (i : nat) :
  (i ≤ String.length s)%nat →
  substring 0 i s +:+ substring i (String.length s - i) s = s.
Proof.
  revert i. induction s as [|c s IH]; intros [|i] Hi; simpl in *; try lia.
  - done.
  - by rewrite append_nil_l, substring_all.
  - rewrite append_cons. f_equal. apply IH. lia.
Qed.

(** The stem followed by the suffix is the name again. *)
Lemma stem_suffix (nm : string) : Pathlib.stem nm +:+ Pathlib.suffix nm = nm.
Proof.
  unfold Pathlib.stem, Pathlib.suffix.
  destruct (Pathlib.dot_index nm) as [i|] eqn:E.
  - apply substring_split.
    unfold Pathlib.dot_index in E.
    destruct (Pathlib.rfind_dot nm); [| done].
    case_bool_decide; [| done]. injection E as <-. lia.
  - clear. induction nm as [|c s IH]; [done |].
    by rewrite append_cons, IH.
Qed.

Lemma length_lower (s : string) : String.length (lower s) = String.length s.
Proof. induction s; simpl; congruence. Qed.

End Names.

(** ** Paths without [..] *)

Section PlainPaths.






End PlainPaths.

(** ** When a call succeeds, and what it writes *)

Section Outcome.

Variable lanczos : pixels → Z * Z → Z * Z → pixels.

Implicit Types (p : path) (od : option string) (mw q : Z) (w : world) (img : image).

Lemma resized_not_wider img mw : (size img).1 ≤ mw → resized lanczos img mw = Ret img.
Proof.
  intros H. unfold resized.
  destruct (Z.gtb_spec (size img).1 mw); [lia | done].
Qed.

Lemma resized_wider img mw img' :
  (size img).1 > mw →
  resized lanczos img mw = Ret img' →
  ∃ nh, scaled_height mw (size img).1 (size img).2 = Ret nh
        ∧ 1 ≤ mw ∧ 1 ≤ nh ∧ size img' = (mw, nh).
Proof.
  intros H. unfold resized.
  destruct (Z.gtb_spec (size img).1 mw); [| lia].
  destruct (scaled_height _ _ _) as [nh|e]; [| done].
  destruct (Z.ltb_spec mw 1), (Z.ltb_spec nh 1); simpl; try done.
  intros [= <-]. exists nh. simpl. repeat split; (done || lia).
Qed.

Lemma resized_width img mw img' :
  resized lanczos img mw = Ret img' → (size img').1 ≤ mw.
Proof.
  intros H. destruct (Z.le_gt_cases (size img).1 mw) as [Hle|Hgt].
  - rewrite resized_not_wider in H by done. by injection H as <-.
  - destruct (resized_wider img mw img' ltac:(lia) H) as (nh & _ & _ & _ & ->).
    simpl. lia.
Qed.

Lemma node_at_output_after_mkdir p od m :
  creatable m od →
  node_at (after_mkdir od m) (output_path p od) = node_at m (output_path p od).
Proof.
  unfold creatable, after_mkdir, output_path, resolved_dir.
  destruct (given od) as [d|]; [| done]. intros _.
  rewrite node_at_make_dirs, decide_False; [done | apply webp_path_not_prefix].
Qed.

Lemma decode_exists n img : decode n = Ret img → is_Some n.
Proof. destruct n; [eauto | done]. Qed.

(** After the directories are made the input decodes as before. *)
Lemma encoded_after_mkdir p od mw m :
  creatable m od → is_Some (node_at m p) →
  encoded lanczos (after_mkdir od m) p od mw
  = match decode (node_at m p) with
    | Ret img =>
        match resized lanczos (normalise img) mw with
        | Ret img' =>
            if is_dir_node (node_at m (output_path p od)) then Raise IsADirectoryError
            else Ret img'
        | Raise e => Raise e
        end
    | Raise e => Raise e
    end.
Proof.
  intros Hc Hp. unfold encoded.
  rewrite (only_new_dirs_existing _ _ _ (after_mkdir_only_new_dirs od m Hc) Hp).
  by rewrite node_at_output_after_mkdir.
Qed.

Lemma webp_encodable_true img q :
  webp_encodable img q = true
  ↔ (size img).1 ≤ 16383 ∧ (size img).2 ≤ 16383 ∧ 0 ≤ q ∧ q ≤ 100.
Proof.
  unfold webp_encodable. rewrite !andb_true_iff, !Z.leb_le. tauto.
Qed.

(** A call that returns [True] has decoded the input and written the
    normalised, possibly resized buffer to the output path. *)
Lemma optimize_image_true p od mw q w w' :
  optimize_image lanczos p od mw q w = (Ret true, w') →
  ∃ img img', decode (node_at (fs w) p) = Ret img
              ∧ resized lanczos (normalise img) mw = Ret img'
              ∧ creatable (fs w) od
              ∧ webp_encodable img' q = true
              ∧ fs w' = <[output_path p od := File (WebP img' q)]> (after_mkdir od (fs w)).
Proof.
  intros Hrun.
  destruct (optimize_image_transformed lanczos p od mw q w) as (r & w1 & Hrun1 & Ht).
  rewrite Hrun in Hrun1. injection Hrun1 as <- <-.
  inversion Ht as [| | | | img' evs Hp Hc He Hq]; subst.
  rewrite encoded_after_mkdir in He by done.
  destruct (decode (node_at (fs w) p)) as [img|]; [| done].
  destruct (resized lanczos (normalise img) mw) as [img''|] eqn:E; [| done].
  destruct (is_dir_node _); [done |]. injection He as ->.
  by exists img, img'.
Qed.

(** The conditions under which a call succeeds. *)
Lemma optimize_image_succeeds p od mw q w img img' :
  decode (node_at (fs w) p) = Ret img →
  resized lanczos (normalise img) mw = Ret img' →
  creatable (fs w) od →
  node_at (fs w) (output_path p od) ≠ Some Dir →
  webp_encodable img' q = true →
  ∃ w', optimize_image lanczos p od mw q w = (Ret true, w')
        ∧ fs w' = <[output_path p od := File (WebP img' q)]> (after_mkdir od (fs w)).
Proof.
  intros Hd Hr Hc Hout Hq.
  pose proof (decode_exists _ _ Hd) as Hp.
  destruct (optimize_image_transformed lanczos p od mw q w) as (r & w1 & Hrun & Ht).
  assert (He : encoded lanczos (after_mkdir od (fs w)) p od mw = Ret img').
  { rewrite encoded_after_mkdir, Hd, Hr by done.
    destruct (node_at (fs w) (output_path p od)) as [[|c]|]; done. }
  inversion Ht as [Hn | d e _ Hg Hb | e evs _ _ He' | img'' evs _ _ He' Hq'
                   | img'' evs _ _ He' Hq']; subst.
  - rewrite Hn in Hp. by destruct Hp.
  - unfold creatable in Hc. rewrite Hg in Hc. congruence.
  - congruence.
  - rewrite He in He'. injection He' as <-. congruence.
  - rewrite He in He'. injection He' as <-. eauto.
Qed.

(** What a call leaves when the encoder refuses the buffer. *)
Lemma optimize_image_refused p od mw q w img img' :
  decode (node_at (fs w) p) = Ret img →
  resized lanczos (normalise img) mw = Ret img' →
  creatable (fs w) od →
  node_at (fs w) (output_path p od) ≠ Some Dir →
  webp_encodable img' q = false →
  ∃ w', optimize_image lanczos p od mw q w = (Ret false, w')
        ∧ fs w' = truncated (output_path p od) (after_mkdir od (fs w))
        ∧ ErrorProcessing (Pathlib.name p) ValueError ∈ stdout w'.
Proof.
  intros Hd Hr Hc Hout Hq.
  pose proof (decode_exists _ _ Hd) as Hp.
  destruct (optimize_image_transformed lanczos p od mw q w) as (r & w1 & Hrun & Ht).
  assert (He : encoded lanczos (after_mkdir od (fs w)) p od mw = Ret img').
  { rewrite encoded_after_mkdir, Hd, Hr by done.
    destruct (node_at (fs w) (output_path p od)) as [[|c]|]; done. }
  inversion Ht as [Hn | d e _ Hg Hb | e evs _ _ He' | img'' evs _ _ He' Hq'
                   | img'' evs _ _ He' Hq']; subst.
  - rewrite Hn in Hp. by destruct Hp.
  - unfold creatable in Hc. rewrite Hg in Hc. congruence.
  - congruence.
  - eexists. split; [done |]. simpl. split; [done |].
    rewrite elem_of_app. right. rewrite elem_of_cons. right.
    rewrite elem_of_app. right. apply elem_of_cons. by left.
  - rewrite He in He'. injection He' as <-. congruence.
Qed.

(** A file the call cannot decode leaves [False] and the directories. *)
Lemma optimize_image_undecodable p od mw q w e :
  is_Some (node_at (fs w) p) →
  decode (node_at (fs w) p) = Raise e →
  creatable (fs w) od →
  ∃ w', optimize_image lanczos p od mw q w = (Ret false, w')
        ∧ fs w' = after_mkdir od (fs w)
        ∧ ErrorProcessing (Pathlib.name p) e ∈ stdout w'.
Proof.
  intros Hp Hd Hc.
  destruct (optimize_image_transformed lanczos p od mw q w) as (r & w1 & Hrun & Ht).
  assert (He : encoded lanczos (after_mkdir od (fs w)) p od mw = Raise e).
  { by rewrite encoded_after_mkdir, Hd. }
  inversion Ht as [Hn | d e' _ Hg Hb | e' evs _ _ He' | img'' evs _ _ He' _
                   | img'' evs _ _ He' _]; subst.
  - rewrite Hn in Hp. by destruct Hp.
  - unfold creatable in Hc. rewrite Hg in Hc. congruence.
  - rewrite He in He'. injection He' as <-.
    eexists. split; [done |]. simpl. split; [done |].
    rewrite elem_of_app. right. rewrite elem_of_cons. right.
    rewrite elem_of_app. right. apply elem_of_cons. by left.
  - congruence.
  - congruence.
Qed.

(** A wider image is written with the maximum width and the height of
    lines 60-61. *)
Lemma wider_dimensions p od mw q w w' img :
  decode (node_at (fs w) p) = Ret img →
  (size img).1 > mw →
  optimize_image lanczos p od mw q w = (Ret true, w') →
  ∃ img' nh, node_at (fs w') (output_path p od) = Some (File (WebP img' q))
             ∧ size img' = (mw, nh)
             ∧ scaled_height mw (size img).1 (size img).2 = Ret nh.
Proof.
  intros Hd Hgt Hrun.
  destruct (optimize_image_true p od mw q w w' Hrun)
    as (img0 & img' & Hd0 & Hr & _ & _ & Hfs).
  rewrite Hd in Hd0. injection Hd0 as <-.
  destruct (resized_wider (normalise img) mw img') as (nh & Hh & _ & _ & Hsz);
    [by rewrite normalise_size | done |].
  rewrite normalise_size in Hh.
  exists img', nh. split; [| done].
  rewrite Hfs, node_at_insert by apply output_path_nonempty.
  by rewrite decide_True.
Qed.

(** A call that returns [False] has said why. *)
Lemma failure_reported p od mw q w w' :
  optimize_image lanczos p od mw q w = (Ret false, w') →
  FileNotFound p ∈ stdout w' ∨ ∃ e, ErrorProcessing (Pathlib.name p) e ∈ stdout w'.
Proof.
  intros Hrun.
  destruct (optimize_image_transformed lanczos p od mw q w) as (r & w1 & Hrun1 & Ht).
  rewrite Hrun in Hrun1. injection Hrun1 as <- <-.
  inversion Ht as [Hn | | e evs _ _ He | img' evs _ _ He _ |]; subst; simpl.
  - left. rewrite elem_of_app. right. by apply list_elem_of_singleton.
  - right. exists e.
    rewrite elem_of_app. right. rewrite elem_of_cons. right.
    rewrite elem_of_app. right. apply elem_of_cons. by left.
  - right. exists ValueError.
    rewrite elem_of_app. right. rewrite elem_of_cons. right.
    rewrite elem_of_app. right. apply elem_of_cons. by left.
Qed.

End Outcome.

(** * The claims of the specification *)

Example suffix_examples :
  Pathlib.suffix "a.PNG" = ".PNG" ∧ Pathlib.suffix "archive.tar.gz" = ".gz"
  ∧ Pathlib.suffix ".png" = "" ∧ Pathlib.suffix "trailing." = ""
  ∧ Pathlib.stem "a.PNG" = "a" ∧ Pathlib.stem ".png" = ".png".
Proof. repeat split; reflexivity. Qed.

Example default_scenario :
  scaled_height 300 1200 800 = Ret 200
  ∧ resized nearest (solid (200, 150) (1, 2, 3)) 300 = Ret (solid (200, 150) (1, 2, 3)).
Proof. split; reflexivity. Qed.

(** C1 (the code departs from the claim): for a 348x145 image and the
    default maximum width 300 the transform writes a 300x124 image, although
    floor(145 * 300 / 348) = 125.  The height is computed in floating point
    as int(145 * (300 / 348)), and 145 * (300 / 348) rounds to
    124.99999999999999. *)
Theorem resize_height_below_floor :
  ∀ lanczos,
    let run := optimize_image lanczos ["photo.png"] None 300 85 photo_world in
    run.1 = Ret true
    ∧ (∃ img', fs run.2 !! ["photo.webp"] = Some (File (WebP img' 85))
               ∧ size img' = (300, 124))
    ∧ (145 * 300) `div` 348 = 125
    ∧ scaled_height 300 348 145 = Ret 124.
Proof.
  intros lanczos run. split; [by vm_compute |]. split; [| by vm_compute].
  exists (Image (300, 124)
            (lanczos (PxRGB (λ _ _, (90, 120, 200))) (348, 145) (300, 124))).
  split; [by vm_compute | done].
Qed.

(** C2 (the code departs from the claim): a fully transparent pixel of a
    luminance-alpha image does not become white.  The paste receives a mask
    for RGBA only, so the black transparent pixel is written as black. *)
Theorem la_transparency_ignored :
  ∀ lanczos,
    let run := optimize_image lanczos ["logo.png"] None 300 85 logo_world in
    run.1 = Ret true
    ∧ ∃ img', fs run.2 !! ["logo.webp"] = Some (File (WebP img' 85))
              ∧ getpixel img' 0 0 = (0, 0, 0)
              ∧ getpixel img' 0 0 ≠ white.
Proof.
  intros lanczos run. split; [by vm_compute |].
  exists (Image (2, 2) (PxRGB (λ _ _, (0, 0, 0)))).
  split; [by vm_compute |]. split; [done | by intros [=]].
Qed.

(** C4 (the code departs from the claim): when the output directory cannot
    be created the exception leaves [optimize_image] and [optimize_directory]
    uncaught.  Of the two candidates in [in] only the first is attempted,
    nothing is reported for it and no summary line is printed. *)
Theorem mkdir_failure_aborts_batch :
  ∀ lanczos,
    let run := optimize_directory lanczos ["in"] (Some "out") 300 85 batch_world in
    length (candidates (fs batch_world) ["in"]) = 2%nat
    ∧ run.1 = Raise FileExistsError
    ∧ length (calls run.2) = 1%nat
    ∧ stdout run.2 = [Found 2 ["in"] (Some "out") 300 85].
Proof.
  intros lanczos run. repeat split; by vm_compute.
Qed.

(** C3: an image no wider than the maximum width is not resized: a call
    that returns [True] has written the normalised buffer itself, with the
    dimensions of the input, and the call does return [True] when the output
    directory can be made, the output path is not a directory and the
    encoder accepts the image (no side beyond 16383 pixels, quality from 0
    to 100); when the encoder does not accept it the call does not return
    [True].  Whatever the input, an image written is never wider than the
    maximum width. *)
Theorem no_upscaling lanczos p od mw q w img :
  decode (node_at (fs w) p) = Ret img →
  ((size img).1 ≤ mw →
     (∀ w', optimize_image lanczos p od mw q w = (Ret true, w') →
            node_at (fs w') (output_path p od) = Some (File (WebP (normalise img) q))
            ∧ size (normalise img) = size img)
     ∧ (creatable (fs w) od →
        node_at (fs w) (output_path p od) ≠ Some Dir →
        (size img).1 ≤ 16383 → (size img).2 ≤ 16383 → 0 ≤ q → q ≤ 100 →
        ∃ w', optimize_image lanczos p od mw q w = (Ret true, w'))
     ∧ ((16383 < (size img).1 ∨ 16383 < (size img).2 ∨ q < 0 ∨ 100 < q) →
        ∀ w', optimize_image lanczos p od mw q w ≠ (Ret true, w')))
  ∧ (∀ w' img', optimize_image lanczos p od mw q w = (Ret true, w') →
        node_at (fs w') (output_path p od) = Some (File (WebP img' q)) →
        (size img').1 ≤ mw).
Proof.
  intros Hd. split.
  - intros Hle.
    assert (Hr : resized lanczos (normalise img) mw = Ret (normalise img)).
    { apply resized_not_wider. by rewrite normalise_size. }
    assert (Htrue : ∀ w', optimize_image lanczos p od mw q w = (Ret true, w') →
              webp_encodable (normalise img) q = true
              ∧ fs w' = <[output_path p od := File (WebP (normalise img) q)]>
                          (after_mkdir od (fs w))).
    { intros w' Hrun.
      destruct (optimize_image_true lanczos p od mw q w w' Hrun)
        as (img0 & img1 & Hd0 & Hr0 & _ & Hq & Hfs).
      rewrite Hd in Hd0. injection Hd0 as <-.
      rewrite Hr in Hr0. injection Hr0 as <-. done. }
    split; [| split].
    + intros w' Hrun. destruct (Htrue w' Hrun) as [_ Hfs].
      split; [| apply normalise_size].
      rewrite Hfs, node_at_insert by apply output_path_nonempty.
      by rewrite decide_True.
    + intros Hc Hout Hw Hh Hq0 Hq1.
      assert (Hq : webp_encodable (normalise img) q = true).
      { apply webp_encodable_true. by rewrite normalise_size. }
      destruct (optimize_image_succeeds lanczos p od mw q w _ _ Hd Hr Hc Hout Hq)
        as (w' & Hrun & _).
      by exists w'.
    + intros Hbad w' Hrun. destruct (Htrue w' Hrun) as [Hq _].
      apply webp_encodable_true in Hq. rewrite normalise_size in Hq. lia.
  - intros w' img' Hrun Hnode.
    destruct (optimize_image_true lanczos p od mw q w w' Hrun)
      as (img0 & img1 & _ & Hr & _ & _ & Hfs).
    rewrite Hfs, node_at_insert in Hnode by apply output_path_nonempty.
    rewrite decide_True in Hnode by done.
    injection Hnode as <-. by eapply resized_width.
Qed.

Lemma no_upscaling_witness :
  let p := ["in"; "a.png"] in
  let img := solid (200, 150) (1, 2, 3) in
  decode (node_at (fs batch_world) p) = Ret img
  ∧ ∃ w', optimize_image nearest p None 300 85 batch_world = (Ret true, w')
          ∧ node_at (fs w') ["in"; "a.webp"] = Some (File (WebP img 85)).
Proof.
  intros p img.
  assert (H1 : decode (node_at (fs batch_world) p) = Ret img) by reflexivity.
  assert (H2 : creatable (fs batch_world) None) by exact I.
  assert (H3 : node_at (fs batch_world) (output_path p None) ≠ Some Dir)
    by (vm_compute; discriminate).
  assert (H4 : (size img).1 ≤ 300) by (vm_compute; discriminate).
  assert (H5 : (size img).1 ≤ 16383) by (vm_compute; discriminate).
  assert (H6 : (size img).2 ≤ 16383) by (vm_compute; discriminate).
  assert (H7 : 0 ≤ 85) by (vm_compute; discriminate).
  assert (H8 : 85 ≤ 100) by (vm_compute; discriminate).
  split; [exact H1 |].
  destruct (proj1 (no_upscaling nearest p None 300 85 batch_world img H1) H4)
    as (Hwritten & Hruns & _).
  destruct (Hruns H2 H3 H5 H6 H7 H8) as [w' Hrun].
  exists w'. split; [exact Hrun |].
  exact (proj1 (Hwritten w' Hrun)).
Defined.





(** C7: on a path that does not exist the transform prints that the file
    was not found and returns [False], leaving the file system as it was (no
    file written, no directory made); and [main] on such a path ends with a
    nonzero exit status, again with the file system as it was. *)
Theorem missing_input_reported lanczos int_of_str p w :
  node_at (fs w) p = None →
  (∀ od mw q,
     optimize_image lanczos p od mw q w
     = (Ret false,
        World (fs w) (stdout w ++ [FileNotFound p]) (stdin w) (isatty w) (calls w ++ [p])))
  ∧ (∀ prog s options,
       Pathlib.Path s = p →
       ∃ r w', main lanczos int_of_str (prog :: s :: options) w = (r, w')
               ∧ exit_status r ≠ 0 ∧ fs w' = fs w).
Proof.
  intros Hp. split.
  - intros od mw q.
    destruct (optimize_image_transformed lanczos p od mw q w) as (r & w' & Hrun & Ht).
    rewrite Hrun.
    inversion Ht as [Hn | d e [n Hs] | e evs [n Hs] | img' evs [n Hs]
                     | img' evs [n Hs]]; subst; [done | congruence..].
  - intros prog s options <-.
    destruct (main_missing lanczos int_of_str prog s options w Hp)
      as (r & w' & Hrun & Hexit & Hfs & _).
    exists r, w'. rewrite Hexit. done.
Qed.

Lemma missing_input_reported_witness :
  let p := ["gone.png"] in
  node_at (fs photo_world) p = None
  ∧ optimize_image nearest p (Some "out") 300 85 photo_world
    = (Ret false,
       World (fs photo_world) (stdout photo_world ++ [FileNotFound p])
         (stdin photo_world) (isatty photo_world) (calls photo_world ++ [p]))
  ∧ ∃ r w', main nearest decimal ["optimize-images.py"; "gone.png"; "--width"; "400"] photo_world
            = (r, w')
            ∧ exit_status r ≠ 0 ∧ fs w' = fs photo_world.
Proof.
  intros p.
  assert (H1 : node_at (fs photo_world) p = None) by reflexivity.
  pose proof (missing_input_reported nearest decimal p photo_world H1) as [Ha Hb].
  split; [exact H1 |]. split; [apply Ha |].
  apply Hb. reflexivity.
Defined.

(** C9: when a supplied output directory can be made, it is made before
    the input is opened: for an existing input that does not decode the call
    returns [False], the directory and all its ancestors exist afterwards,
    and no file has been written, the output path included. *)
Theorem directory_created_before_decode lanczos p od mw q w d e :
  is_Some (node_at (fs w) p) →
  decode (node_at (fs w) p) = Raise e →
  given od = Some d →
  blocked (fs w) d = false →
  ∃ w',
    optimize_image lanczos p od mw q w = (Ret false, w')
    ∧ node_at (fs w') d = Some Dir
    ∧ (∀ d', d' ∈ prefixes d → node_at (fs w') d' = Some Dir)
    ∧ (∀ f c, node_at (fs w') f = Some (File c) → node_at (fs w) f = Some (File c))
    ∧ node_at (fs w') (output_path p od) = node_at (fs w) (output_path p od).
Proof.
  intros Hp Hd Hg Hb.
  assert (Hc : creatable (fs w) od) by (unfold creatable; by rewrite Hg).
  destruct (optimize_image_undecodable lanczos p od mw q w e Hp Hd Hc)
    as (w' & Hrun & Hfs & _).
  exists w'. split; [done |]. rewrite Hfs.
  assert (Hmk : after_mkdir od (fs w) = make_dirs d (fs w))
    by (unfold after_mkdir; by rewrite Hg).
  split; [| split; [| split]].
  - rewrite Hmk. destruct d as [|c d]; [done |].
    apply make_dirs_all_dirs. by apply self_prefix.
  - intros d' Hd'. rewrite Hmk. by apply make_dirs_all_dirs.
  - intros f c Hf.
    destruct (after_mkdir_only_new_dirs od (fs w) Hc f) as [E|[_ E]]; congruence.
  - by apply node_at_output_after_mkdir.
Qed.

Lemma directory_created_before_decode_witness :
  let p := ["in"; "notes.txt"] in
  let od := Some "web/small" in
  let d := ["web"; "small"] in
  is_Some (node_at (fs batch_world) p)
  ∧ decode (node_at (fs batch_world) p) = Raise UnidentifiedImageError
  ∧ given od = Some d
  ∧ blocked (fs batch_world) d = false
  ∧ node_at (fs batch_world) d = None
  ∧ ∃ w',
      optimize_image nearest p od 300 85 batch_world = (Ret false, w')
      ∧ node_at (fs w') d = Some Dir
      ∧ (∀ d', d' ∈ prefixes d → node_at (fs w') d' = Some Dir)
      ∧ (∀ f c, node_at (fs w') f = Some (File c) → node_at (fs batch_world) f = Some (File c))
      ∧ node_at (fs w') (output_path p od) = node_at (fs batch_world) (output_path p od).
Proof.
  intros p od d.
  assert (H1 : is_Some (node_at (fs batch_world) p)) by (vm_compute; eauto).
  assert (H2 : decode (node_at (fs batch_world) p) = Raise UnidentifiedImageError)
    by reflexivity.
  assert (H3 : given od = Some d) by reflexivity.
  assert (H4 : blocked (fs batch_world) d = false) by reflexivity.
  repeat (split; [first [assumption | reflexivity] |]).
  exact (directory_created_before_decode nearest p od 300 85 batch_world d
           UnidentifiedImageError H1 H2 H3 H4).
Defined.

(** C8: in a directory without a regular file of a supported suffix the
    batch driver prints that no images were found and returns normally; the
    transform is not called and the file system is as it was. *)
Theorem empty_batch_reports lanczos dir od mw q w :
  node_at (fs w) dir = Some Dir →
  (∀ f c, is_child dir f → fs w !! f = Some (File c) →
          lower (Pathlib.suffix (Pathlib.name f)) ∉ supported_formats) →
  optimize_directory lanczos dir od mw q w
  = (Ret (), World (fs w) (stdout w ++ [NoImagesFound dir]) (stdin w) (isatty w) (calls w)).
Proof.
  intros Hdir Hnone.
  assert (E : candidates (fs w) dir = []).
  { destruct (candidates (fs w) dir) as [|f l] eqn:E; [done |].
    assert (Hf : f ∈ candidates (fs w) dir) by (rewrite E; left).
    apply elem_of_candidates in Hf as (Hch & [c Hc] & Hext).
    by destruct (Hnone f c Hch Hc). }
  unfold optimize_directory, stat, iterdir, mbind, M_bind; simpl.
  rewrite Hdir. rewrite bool_decide_true by eauto. simpl.
  rewrite Hdir. fold (candidates (fs w) dir). by rewrite E.
Qed.

Lemma empty_batch_reports_witness :
  let dir := ["docs"] in
  node_at (fs batch_world) dir = Some Dir
  ∧ (∀ f c, is_child dir f → fs batch_world !! f = Some (File c) →
            lower (Pathlib.suffix (Pathlib.name f)) ∉ supported_formats)
  ∧ optimize_directory nearest dir None 300 85 batch_world
    = (Ret (), World (fs batch_world) (stdout batch_world ++ [NoImagesFound dir])
                 (stdin batch_world) (isatty batch_world) (calls batch_world)).
Proof.
  intros dir.
  assert (H1 : node_at (fs batch_world) dir = Some Dir) by reflexivity.
  assert (H2 : ∀ f c, is_child dir f → fs batch_world !! f = Some (File c) →
                      lower (Pathlib.suffix (Pathlib.name f)) ∉ supported_formats).
  { intros f c Hch Hc Hext.
    assert (Hin : f ∈ candidates (fs batch_world) dir)
      by (apply elem_of_candidates; eauto).
    vm_compute in Hin. by apply not_elem_of_nil in Hin. }
  split; [exact H1 |]. split; [exact H2 |].
  exact (empty_batch_reports nearest dir None 300 85 batch_world H1 H2).
Defined.

(** C5 (the code departs from the claim): the directory [in] holds two
    regular files with a supported extension, [a.png] and [b.JPG], besides
    a text file and a sub-directory with a picture in it.  When the output
    directory cannot be made the transform is invoked for one of the two
    only: the exception that leaves the first call ends the loop, so the
    number of invocations is 1 and not 2.  This is the defect of C4, seen
    from the selection. *)
Theorem unmade_directory_cuts_selection :
  ∀ lanczos,
    let run := optimize_directory lanczos ["in"] (Some "out") 300 85 batch_world in
    candidates (fs batch_world) ["in"] ≡ₚ [["in"; "a.png"]; ["in"; "b.JPG"]]
    ∧ node_at (fs batch_world) ["out"] = Some (File Junk)
    ∧ (∃ f, calls run.2 = [f] ∧ f ∈ candidates (fs batch_world) ["in"])
    ∧ (∃ f, f ∈ candidates (fs batch_world) ["in"] ∧ f ∉ calls run.2).
Proof.
  intros lanczos run. split; [by vm_compute |]. split; [by vm_compute |]. split.
  - exists ["in"; "a.png"]. split; [by vm_compute |].
    change (candidates (fs batch_world) ["in"])
      with [["in"; "a.png"]; ["in"; "b.JPG"]].
    apply elem_of_cons. by left.
  - exists ["in"; "b.JPG"].
    change (candidates (fs batch_world) ["in"])
      with [["in"; "a.png"]; ["in"; "b.JPG"]].
    change (calls run.2) with [["in"; "a.png"]].
    split.
    + apply elem_of_cons. right. apply elem_of_cons. by left.
    + intros [H|H]%elem_of_cons; [discriminate | by apply elem_of_nil in H].
Qed.

Example batch_world_run :
  let run := optimize_directory nearest ["in"] (Some "web") 300 85 batch_world in
  candidates (fs batch_world) ["in"] = [["in"; "a.png"]; ["in"; "b.JPG"]]
  ∧ run.1 = Ret ()
  ∧ stdout run.2
    = [Found 2 ["in"] (Some "web") 300 85;
       Processing "a.png"; NoResizeNeeded 200 150; SizeReport;
       Saved ["web"; "a.webp"]; Blank;
       Processing "b.JPG"; Resized 1200 800 300 200; SizeReport;
       Saved ["web"; "b.webp"]; Blank;
       Complete 2 2].
Proof. repeat split; by vm_compute. Qed.

(** * Further properties of the script *)

(** ** Colour normalisation (lines 44-52) *)

(** X1: whatever the mode of the decoded image, the buffer handed on is in
    mode RGB and has the size of the input, and normalising it once more
    changes nothing. *)
Theorem normalised_buffer_is_rgb (img : image) :
  img_mode (normalise img) = RGB
  ∧ size (normalise img) = size img
  ∧ normalise (normalise img) = normalise img.
Proof.
  split; [apply normalise_mode |]. split; [apply normalise_size |].
  destruct img as [sz []]; reflexivity.
Qed.

(** X2: flattening an RGBA image.  A pixel of alpha 0 becomes white; a pixel
    of alpha 255 keeps its colour; and for every alpha each channel of the
    result is a byte again and is the mean of white and the colour, weighted
    by the alpha and rounded to the nearest integer. *)
Theorem rgba_flattened_onto_white sz px x y r g b a :
  px x y = (r, g, b, a) →
  0 ≤ r ≤ 255 → 0 ≤ g ≤ 255 → 0 ≤ b ≤ 255 → 0 ≤ a ≤ 255 →
  ∃ r' g' b',
    getpixel (normalise (Image sz (PxRGBA px))) x y = (r', g', b')
    ∧ (a = 0 → (r', g', b') = white)
    ∧ (a = 255 → (r', g', b') = (r, g, b))
    ∧ (0 ≤ r' ≤ 255 ∧ 0 ≤ g' ≤ 255 ∧ 0 ≤ b' ≤ 255)
    ∧ (- 127 ≤ 255 * r' - (255 * (255 - a) + r * a) ≤ 127
       ∧ - 127 ≤ 255 * g' - (255 * (255 - a) + g * a) ≤ 127
       ∧ - 127 ≤ 255 * b' - (255 * (255 - a) + b * a) ≤ 127).
Proof.
  intros E Hr Hg Hb Ha.
  exists (BLEND a 255 r), (BLEND a 255 g), (BLEND a 255 b).
  split; [by apply normalise_RGBA |].
  pose proof (BLEND_white_linear a r Ha Hr) as Lr.
  pose proof (BLEND_white_linear a g Ha Hg) as Lg.
  pose proof (BLEND_white_linear a b Ha Hb) as Lb.
  split; [| split; [| split; [| done]]].
  - intros ->. by rewrite !BLEND_transparent.
  - intros ->. by rewrite !BLEND_opaque.
  - repeat split; nia.
Qed.

Lemma rgba_flattened_onto_white_witness :
  translucent_px 1 0 = (200, 100, 50, 128)
  ∧ ∃ r' g' b',
      getpixel (normalise translucent) 1 0 = (r', g', b')
      ∧ (128 = 0 → (r', g', b') = white)
      ∧ (128 = 255 → (r', g', b') = (200, 100, 50))
      ∧ (0 ≤ r' ≤ 255 ∧ 0 ≤ g' ≤ 255 ∧ 0 ≤ b' ≤ 255)
      ∧ (- 127 ≤ 255 * r' - (255 * (255 - 128) + 200 * 128) ≤ 127
         ∧ - 127 ≤ 255 * g' - (255 * (255 - 128) + 100 * 128) ≤ 127
         ∧ - 127 ≤ 255 * b' - (255 * (255 - 128) + 50 * 128) ≤ 127).
Proof.
  split; [reflexivity |].
  apply (rgba_flattened_onto_white (2, 1) translucent_px 1 0 200 100 50 128);
    [reflexivity | lia..].
Defined.

(** X3: flattening a palette image.  Every pixel is treated as its palette
    entry: an entry of alpha 0 becomes white, an entry of alpha 255 keeps its
    colour, and in between the channels are bytes blended with white by the
    alpha, to the nearest integer. *)
Theorem palette_flattened_onto_white sz palette px x y r g b a :
  palette (px x y) = (r, g, b, a) →
  0 ≤ r ≤ 255 → 0 ≤ g ≤ 255 → 0 ≤ b ≤ 255 → 0 ≤ a ≤ 255 →
  ∃ r' g' b',
    getpixel (normalise (Image sz (PxP palette px))) x y = (r', g', b')
    ∧ (a = 0 → (r', g', b') = white)
    ∧ (a = 255 → (r', g', b') = (r, g, b))
    ∧ (0 ≤ r' ≤ 255 ∧ 0 ≤ g' ≤ 255 ∧ 0 ≤ b' ≤ 255)
    ∧ (- 127 ≤ 255 * r' - (255 * (255 - a) + r * a) ≤ 127
       ∧ - 127 ≤ 255 * g' - (255 * (255 - a) + g * a) ≤ 127
       ∧ - 127 ≤ 255 * b' - (255 * (255 - a) + b * a) ≤ 127).
Proof.
  intros E Hr Hg Hb Ha.
  exists (BLEND a 255 r), (BLEND a 255 g), (BLEND a 255 b).
  split; [by apply normalise_P |].
  pose proof (BLEND_white_linear a r Ha Hr) as Lr.
  pose proof (BLEND_white_linear a g Ha Hg) as Lg.
  pose proof (BLEND_white_linear a b Ha Hb) as Lb.
  split; [| split; [| split; [| done]]].
  - intros ->. by rewrite !BLEND_transparent.
  - intros ->. by rewrite !BLEND_opaque.
  - repeat split; nia.
Qed.

Lemma palette_flattened_onto_white_witness :
  let palette (i : Z) : rgba := if i =? 0 then (0, 0, 0, 0) else (255, 0, 0, 255) in
  let px (x y : Z) : Z := x in
  palette (px 0 0) = (0, 0, 0, 0)
  ∧ ∃ r' g' b',
      getpixel (normalise (Image (2, 1) (PxP palette px))) 0 0 = (r', g', b')
      ∧ (0 = 0 → (r', g', b') = white)
      ∧ (0 = 255 → (r', g', b') = (0, 0, 0))
      ∧ (0 ≤ r' ≤ 255 ∧ 0 ≤ g' ≤ 255 ∧ 0 ≤ b' ≤ 255)
      ∧ (- 127 ≤ 255 * r' - (255 * (255 - 0) + 0 * 0) ≤ 127
         ∧ - 127 ≤ 255 * g' - (255 * (255 - 0) + 0 * 0) ≤ 127
         ∧ - 127 ≤ 255 * b' - (255 * (255 - 0) + 0 * 0) ≤ 127).
Proof.
  intros palette px. split; [reflexivity |].
  apply (palette_flattened_onto_white (2, 1) palette px 0 0 0 0 0 0);
    [reflexivity | lia..].
Defined.

(** ** Names and paths (lines 23-37) *)

Section OutputNames.

Lemma append_cancel_l (a b c : string) : a +:+ b = a +:+ c → b = c.
Proof.
  induction a as [|ch a IH]; [done |].
  rewrite !append_cons. intros [= H]. by apply IH.
Qed.

Lemma path_snoc (p : path) : p ≠ [] → ∃ l x, p = l ++ [x].
Proof.
  induction p as [|l x _] using rev_ind; [done | eauto].
Qed.

Lemma name_snoc (l : path) (x : string) : Pathlib.name (l ++ [x]) = x.
Proof. unfold Pathlib.name. by rewrite last_snoc. Qed.

Lemma parent_snoc (l : path) (x : string) : Pathlib.parent (l ++ [x]) = l.
Proof. unfold Pathlib.parent. apply removelast_last. Qed.

Lemma rfind_dot_webp (s : string) : Pathlib.rfind_dot (s +:+ ".webp") = Some (String.length s).
Proof.
  induction s as [|c s IH]; [done |].
  rewrite append_cons. simpl. by rewrite IH.
Qed.

Lemma length_append (a b : string) :
  String.length (a +:+ b) = (String.length a + String.length b)%nat.
Proof.
  induction a as [|c a IH]; [done |]. rewrite append_cons. simpl. by rewrite IH.
Qed.

Lemma substring_append_r (a b : string) :
  substring (String.length a) (String.length b) (a +:+ b) = b.
Proof.
  induction a as [|c a IH]; [apply substring_all |].
  rewrite append_cons. simpl. apply IH.
Qed.

Lemma suffix_webp (s : string) : s ≠ "" → Pathlib.suffix (s +:+ ".webp") = ".webp".
Proof.
  intros Hs. unfold Pathlib.suffix, Pathlib.dot_index.
  rewrite rfind_dot_webp, length_append. simpl String.length.
  rewrite bool_decide_true.
  - replace (String.length s + 5 - String.length s)%nat with 5%nat by lia.
    apply (substring_append_r s ".webp").
  - destruct s; [done | simpl; lia].
Qed.

Lemma stem_nonempty (nm : string) : nm ≠ "" → Pathlib.stem nm ≠ "".
Proof.
  intros Hnm. unfold Pathlib.stem.
  destruct (Pathlib.dot_index nm) as [i|] eqn:E; [| done].
  unfold Pathlib.dot_index in E.
  destruct (Pathlib.rfind_dot nm) as [j|]; [| done].
  case_bool_decide as Hj; [| done]. injection E as <-.
  destruct nm as [|c nm]; [done |].
  destruct j as [|j]; [lia | done].
Qed.

Lemma stem_webp_iff (x : string) :
  Pathlib.stem x +:+ ".webp" = x ↔ Pathlib.suffix x = ".webp".
Proof.
  split.
  - intros H. apply (append_cancel_l (Pathlib.stem x)). by rewrite stem_suffix.
  - intros H. rewrite <- H. apply stem_suffix.
Qed.

Lemma output_path_None_snoc (l : path) (x : string) :
  output_path (l ++ [x]) None = l ++ [Pathlib.stem x +:+ ".webp"].
Proof.
  unfold output_path, resolved_dir, webp_path. simpl given.
  by rewrite name_snoc, parent_snoc.
Qed.

End OutputNames.

(** X4: without an output directory the output path is the input path
    exactly when the input's suffix is [.webp], in lower case: only then does
    the conversion overwrite its own source. *)
Theorem output_is_input_iff_webp (p : path) :
  p ≠ [] →
  output_path p None = p ↔ Pathlib.suffix (Pathlib.name p) = ".webp".
Proof.
  intros Hp. destruct (path_snoc p Hp) as (l & x & ->).
  rewrite output_path_None_snoc, name_snoc, <- stem_webp_iff. split.
  - intros H. apply app_inv_head in H. by injection H.
  - by intros ->.
Qed.

Lemma output_is_input_iff_webp_witness :
  ["pics"; "b.webp"] ≠ []
  ∧ (output_path ["pics"; "b.webp"] None = ["pics"; "b.webp"]
     ↔ Pathlib.suffix (Pathlib.name ["pics"; "b.webp"]) = ".webp").
Proof.
  assert (H : ["pics"; "b.webp"] ≠ ([] : path)) by discriminate.
  split; [exact H | exact (output_is_input_iff_webp ["pics"; "b.webp"] H)].
Defined.

(** ** One call of [optimize_image] (lines 13-89) *)

(** X5: a decodable [.webp] file converted without an output directory, and
    not wider than the maximum width, is its own output.  When the encoder
    accepts the image (no side beyond 16383 pixels, quality from 0 to 100)
    the call returns [True] and the file is replaced by its own re-encoding;
    when it does not, the call returns [False] and the file is left empty. *)
Theorem webp_source_overwritten lanczos p mw q w img :
  p ≠ [] →
  Pathlib.suffix (Pathlib.name p) = ".webp" →
  decode (node_at (fs w) p) = Ret img →
  (size img).1 ≤ mw →
  ((size img).1 ≤ 16383 → (size img).2 ≤ 16383 → 0 ≤ q → q ≤ 100 →
   ∃ w', optimize_image lanczos p None mw q w = (Ret true, w')
         ∧ node_at (fs w') p = Some (File (WebP (normalise img) q)))
  ∧ ((16383 < (size img).1 ∨ 16383 < (size img).2 ∨ q < 0 ∨ 100 < q) →
     ∃ w', optimize_image lanczos p None mw q w = (Ret false, w')
           ∧ node_at (fs w') p = Some (File Junk)).
Proof.
  intros Hp Hsuf Hd Hle.
  assert (Hout : output_path p None = p).
  { destruct (path_snoc p Hp) as (l & x & ->).
    rewrite name_snoc in Hsuf. apply stem_webp_iff in Hsuf.
    by rewrite output_path_None_snoc, Hsuf. }
  assert (Hr : resized lanczos (normalise img) mw = Ret (normalise img)).
  { apply resized_not_wider. by rewrite normalise_size. }
  assert (Hnd : node_at (fs w) (output_path p None) ≠ Some Dir).
  { rewrite Hout. intros E. by rewrite E in Hd. }
  split.
  - intros Hw Hh Hq0 Hq1.
    assert (Hq : webp_encodable (normalise img) q = true).
    { apply webp_encodable_true. by rewrite normalise_size. }
    destruct (optimize_image_succeeds lanczos p None mw q w _ _ Hd Hr I Hnd Hq)
      as (w' & Hrun & Hfs).
    exists w'. split; [done |].
    rewrite Hfs, Hout, node_at_insert by done. by rewrite decide_True.
  - intros Hbad.
    assert (Hq : webp_encodable (normalise img) q = false).
    { destruct (webp_encodable (normalise img) q) eqn:E; [| done].
      apply webp_encodable_true in E. rewrite normalise_size in E. lia. }
    destruct (optimize_image_refused lanczos p None mw q w _ _ Hd Hr I Hnd Hq)
      as (w' & Hrun & Hfs & _).
    exists w'. split; [done |].
    rewrite Hfs, Hout. unfold after_mkdir; simpl.
    rewrite node_at_truncated by done.
    destruct (node_at (fs w) p) as [[|c]|]; done.
Qed.

Lemma webp_source_overwritten_witness :
  let p := ["pics"; "b.webp"] in
  let img := solid (100, 100) (7, 8, 9) in
  p ≠ []
  ∧ Pathlib.suffix (Pathlib.name p) = ".webp"
  ∧ decode (node_at (fs gallery_world) p) = Ret img
  ∧ (size img).1 ≤ 300
  ∧ (∃ w', optimize_image nearest p None 300 85 gallery_world = (Ret true, w')
           ∧ node_at (fs w') p = Some (File (WebP img 85)))
  ∧ (∃ w', optimize_image nearest p None 300 101 gallery_world = (Ret false, w')
           ∧ node_at (fs w') p = Some (File Junk)).
Proof.
  intros p img.
  assert (H1 : p ≠ []) by discriminate.
  assert (H2 : Pathlib.suffix (Pathlib.name p) = ".webp") by reflexivity.
  assert (H3 : decode (node_at (fs gallery_world) p) = Ret img) by reflexivity.
  assert (H4 : (size img).1 ≤ 300) by (vm_compute; discriminate).
  assert (H5 : (size img).1 ≤ 16383) by (vm_compute; discriminate).
  assert (H6 : (size img).2 ≤ 16383) by (vm_compute; discriminate).
  assert (H7 : 0 ≤ 85) by (vm_compute; discriminate).
  assert (H8 : 85 ≤ 100) by (vm_compute; discriminate).
  assert (H9 : 16383 < (size img).1 ∨ 16383 < (size img).2 ∨ 101 < 0 ∨ 100 < 101)
    by (right; right; right; reflexivity).
  repeat (split; [assumption |]).
  split.
  - exact (proj1 (webp_source_overwritten nearest p 300 85 gallery_world img H1 H2 H3 H4)
             H5 H6 H7 H8).
  - exact (proj2 (webp_source_overwritten nearest p 300 101 gallery_world img H1 H2 H3 H4)
             H9).
Defined.

(** X6: when the output directory and all its ancestors are directories
    already, resolving it changes nothing and does not fail (the call passes
    [exist_ok=True]). *)
Theorem existing_directory_kept p od d w :
  given od = Some d →
  (∀ d', d' ∈ prefixes d → node_at (fs w) d' = Some Dir) →
  set_output_directory p od w = (Ret d, w).
Proof.
  intros Hg Hdirs.
  assert (Hb : blocked (fs w) d = false).
  { apply blocked_false_intro. intros d' Hd'. by rewrite (Hdirs d' Hd'). }
  assert (Hf : is_file_node (node_at (fs w) d) = false).
  { destruct (is_file_node (node_at (fs w) d)) eqn:E; [| done].
    apply blocked_of_file in E. congruence. }
  assert (Hm : make_dirs d (fs w) = fs w).
  { apply map_eq. intros f. rewrite lookup_make_dirs.
    destruct (decide (f ∈ prefixes d)) as [Hin|]; [| done].
    pose proof (Hdirs f Hin) as Hn.
    destruct f as [|c f]; [by apply prefixes_nonempty in Hin | done]. }
  unfold set_output_directory, mkdir_parents, mbind, M_bind, mret, M_ret.
  rewrite Hg, Hf, Hb, Hm. by destruct w.
Qed.

Lemma existing_directory_kept_witness :
  given (Some "pics") = Some ["pics"]
  ∧ (∀ d', d' ∈ prefixes ["pics"] → node_at (fs gallery_world) d' = Some Dir)
  ∧ set_output_directory ["pics"; "a.png"] (Some "pics") gallery_world
    = (Ret ["pics"], gallery_world).
Proof.
  assert (H1 : given (Some "pics") = Some ["pics"]) by reflexivity.
  assert (H2 : ∀ d', d' ∈ prefixes ["pics"] → node_at (fs gallery_world) d' = Some Dir).
  { intros d' Hd'. vm_compute in Hd'. apply list_elem_of_singleton in Hd' as ->.
    reflexivity. }
  split; [exact H1 |]. split; [exact H2 |].
  exact (existing_directory_kept ["pics"; "a.png"] (Some "pics") ["pics"] gallery_world H1 H2).
Defined.

Section CallOutcomes.

Variable lanczos : pixels → Z * Z → Z * Z → pixels.

Implicit Types (p : path) (od : option string) (mw q : Z) (w : world).

(** A call whose [try] block fails with [e] returns [False], reports [e]
    and leaves no file behind. *)
Lemma optimize_image_fails p od mw q w e :
  is_Some (node_at (fs w) p) →
  creatable (fs w) od →
  encoded lanczos (after_mkdir od (fs w)) p od mw = Raise e →
  ∃ w', optimize_image lanczos p od mw q w = (Ret false, w')
        ∧ fs w' = after_mkdir od (fs w)
        ∧ ErrorProcessing (Pathlib.name p) e ∈ stdout w'.
Proof.
  intros Hp Hc He.
  destruct (optimize_image_transformed lanczos p od mw q w) as (r & w1 & Hrun & Ht).
  inversion Ht as [Hn | d e' _ Hg Hb | e' evs _ _ He' | img'' evs _ _ He' _
                   | img'' evs _ _ He' _]; subst.
  - rewrite Hn in Hp. by destruct Hp.
  - unfold creatable in Hc. rewrite Hg in Hc. congruence.
  - rewrite He in He'. injection He' as <-.
    eexists. split; [done |]. simpl. split; [done |].
    rewrite elem_of_app. right. rewrite elem_of_cons. right.
    rewrite elem_of_app. right. apply elem_of_cons. by left.
  - congruence.
  - congruence.
Qed.

(** What a call prints is added after what was printed before. *)
Lemma transformed_stdout p od mw q w r w' :
  transformed lanczos p od mw q w r w' → ∃ evs, stdout w' = stdout w ++ evs.
Proof.
  intros [Hp | d e Hp Hg Hb | e evs Hp Hc He | img' evs Hp Hc He Hq
          | img' evs Hp Hc He Hq]; simpl; eauto.
  exists []. by rewrite app_nil_r.
Qed.

(** No call removes a node. *)
Lemma transformed_keeps p od mw q w r w' f :
  transformed lanczos p od mw q w r w' →
  is_Some (node_at (fs w) f) → is_Some (node_at (fs w') f).
Proof.
  intros Ht Hf.
  destruct (decide (f = output_path p od)) as [->|Hne].
  - inversion Ht as [Hn | d e _ Hg Hb | e evs _ Hc He | img' evs _ Hc He _
                     | img' evs _ Hc He _]; subst; simpl; try done.
    + by rewrite (only_new_dirs_existing _ _ _ (after_mkdir_only_new_dirs od _ Hc) Hf).
    + rewrite node_at_truncated by apply output_path_nonempty.
      destruct (is_file_node _); [eauto |].
      by rewrite (only_new_dirs_existing _ _ _ (after_mkdir_only_new_dirs od _ Hc) Hf).
    + rewrite node_at_insert by apply output_path_nonempty.
      rewrite decide_True by done. eauto.
  - destruct (transformed_frame lanczos p od mw q w r w' f Ht Hne) as [E|[E _]].
    + by rewrite E.
    + rewrite E in Hf. by destruct Hf.
Qed.

(** The exceptions that can leave a call, on the file system modelled here
    (no permissions, quotas or devices). *)
Lemma escaped_exception p od mw q w e w' :
  optimize_image lanczos p od mw q w = (Raise e, w') →
  e = FileExistsError ∨ e = NotADirectoryError.
Proof.
  intros Hrun.
  destruct (optimize_image_transformed lanczos p od mw q w) as (r1 & w1 & Hrun1 & Ht).
  rewrite Hrun in Hrun1. injection Hrun1 as <- <-.
  inversion Ht as [| d e' [n Hn] Hg Hb | | |]; subst; simpl.
  unfold optimize_image, enter, stat, set_output_directory, mkdir_parents in Hrun.
  unfold mbind, M_bind in Hrun. simpl in Hrun.
  rewrite Hn in Hrun. rewrite bool_decide_true in Hrun by eauto. simpl in Hrun.
  rewrite Hg in Hrun. simpl in Hrun.
  destruct (is_file_node (node_at (fs w) d)).
  - injection Hrun as <-. by left.
  - rewrite Hb in Hrun. injection Hrun as <-. by right.
Qed.

End CallOutcomes.

(** X7: when a directory sits at the output path, the call does not raise:
    it reports the error, returns [False] and writes nothing. *)
Theorem output_path_taken_by_directory lanczos p od mw q w img :
  decode (node_at (fs w) p) = Ret img →
  (size img).1 ≤ mw →
  creatable (fs w) od →
  node_at (fs w) (output_path p od) = Some Dir →
  ∃ w', optimize_image lanczos p od mw q w = (Ret false, w')
        ∧ fs w' = after_mkdir od (fs w)
        ∧ ErrorProcessing (Pathlib.name p) IsADirectoryError ∈ stdout w'
        ∧ node_at (fs w') (output_path p od) = Some Dir.
Proof.
  intros Hd Hle Hc Hout.
  pose proof (decode_exists _ _ Hd) as Hp.
  destruct (optimize_image_fails lanczos p od mw q w IsADirectoryError Hp Hc)
    as (w' & Hrun & Hfs & Hev).
  { rewrite encoded_after_mkdir, Hd by done.
    rewrite resized_not_wider by by rewrite normalise_size.
    by rewrite Hout. }
  exists w'. repeat split; try done.
  by rewrite Hfs, node_at_output_after_mkdir.
Qed.

Lemma output_path_taken_by_directory_witness :
  let p := ["pics"; "a.png"] in
  let img := solid (200, 150) (1, 2, 3) in
  decode (node_at (fs gallery_world) p) = Ret img
  ∧ (size img).1 ≤ 300
  ∧ creatable (fs gallery_world) None
  ∧ node_at (fs gallery_world) (output_path p None) = Some Dir
  ∧ ∃ w', optimize_image nearest p None 300 85 gallery_world = (Ret false, w')
          ∧ fs w' = after_mkdir None (fs gallery_world)
          ∧ ErrorProcessing (Pathlib.name p) IsADirectoryError ∈ stdout w'
          ∧ node_at (fs w') (output_path p None) = Some Dir.
Proof.
  intros p img.
  assert (H1 : decode (node_at (fs gallery_world) p) = Ret img) by reflexivity.
  assert (H2 : (size img).1 ≤ 300) by (vm_compute; discriminate).
  assert (H3 : creatable (fs gallery_world) None) by exact I.
  assert (H4 : node_at (fs gallery_world) (output_path p None) = Some Dir) by reflexivity.
  repeat (split; [assumption |]).
  exact (output_path_taken_by_directory nearest p None 300 85 gallery_world img H1 H2 H3 H4).
Defined.

(** X8: a wider image so flat that line 61 truncates its new height to 0
    (or below) is not written: the resize is refused, the call reports
    [ValueError] and returns [False]. *)
Theorem flat_image_not_written lanczos p od mw q w img nh :
  decode (node_at (fs w) p) = Ret img →
  (size img).1 > mw →
  scaled_height mw (size img).1 (size img).2 = Ret nh →
  nh < 1 →
  creatable (fs w) od →
  ∃ w', optimize_image lanczos p od mw q w = (Ret false, w')
        ∧ fs w' = after_mkdir od (fs w)
        ∧ ErrorProcessing (Pathlib.name p) ValueError ∈ stdout w'.
Proof.
  intros Hd Hgt Hh Hnh Hc.
  pose proof (decode_exists _ _ Hd) as Hp.
  apply (optimize_image_fails lanczos p od mw q w ValueError Hp Hc).
  rewrite encoded_after_mkdir, Hd by done.
  unfold resized. rewrite normalise_size.
  destruct (Z.gtb_spec (size img).1 mw); [| lia].
  rewrite Hh.
  destruct (Z.ltb_spec nh 1); [| lia]. by rewrite orb_true_r.
Qed.

Lemma flat_image_not_written_witness :
  let p := ["pics"; "strip.png"] in
  let img := solid (1200, 3) (4, 5, 6) in
  decode (node_at (fs gallery_world) p) = Ret img
  ∧ (size img).1 > 300
  ∧ scaled_height 300 (size img).1 (size img).2 = Ret 0
  ∧ 0 < 1
  ∧ creatable (fs gallery_world) (Some "out")
  ∧ ∃ w', optimize_image nearest p (Some "out") 300 85 gallery_world = (Ret false, w')
          ∧ fs w' = after_mkdir (Some "out") (fs gallery_world)
          ∧ ErrorProcessing (Pathlib.name p) ValueError ∈ stdout w'.
Proof.
  intros p img.
  assert (H1 : decode (node_at (fs gallery_world) p) = Ret img) by reflexivity.
  assert (H2 : (size img).1 > 300) by reflexivity.
  assert (H3 : scaled_height 300 (size img).1 (size img).2 = Ret 0) by reflexivity.
  assert (H4 : 0 < 1) by reflexivity.
  assert (H5 : creatable (fs gallery_world) (Some "out")) by reflexivity.
  repeat (split; [assumption |]).
  exact (flat_image_not_written nearest p (Some "out") 300 85 gallery_world img 0
           H1 H2 H3 H4 H5).
Defined.

(** X9: a call removes nothing: every path that names a file or a directory
    before the call still names one afterwards, whichever way the call
    ends. *)
Theorem call_never_removes lanczos p od mw q w r w' f :
  optimize_image lanczos p od mw q w = (r, w') →
  is_Some (node_at (fs w) f) →
  is_Some (node_at (fs w') f).
Proof.
  intros Hrun Hf.
  destruct (optimize_image_transformed lanczos p od mw q w) as (r1 & w1 & Hrun1 & Ht).
  rewrite Hrun in Hrun1. injection Hrun1 as <- <-.
  by eapply transformed_keeps.
Qed.

Lemma call_never_removes_witness :
  let run := optimize_image nearest ["pics"; "b.webp"] None 50 85 gallery_world in
  is_Some (node_at (fs gallery_world) ["pics"; "b.webp"])
  ∧ is_Some (node_at (fs run.2) ["pics"; "b.webp"]).
Proof.
  intros run.
  assert (H : is_Some (node_at (fs gallery_world) ["pics"; "b.webp"])) by (vm_compute; eauto).
  split; [exact H |].
  exact (call_never_removes nearest ["pics"; "b.webp"] None 50 85 gallery_world
           run.1 run.2 ["pics"; "b.webp"] (surjective_pairing run) H).
Defined.

(** X10: the value a call returns agrees with what it printed and did.
    A call that returns [True] has printed the processing line first and,
    at the end, the size report, the line naming the output path and a blank
    line, and a WebP file of the requested quality is at that path.  A call
    that returns [False] has printed the not-found line and nothing else, or
    the processing line first and, at the end, an error line naming the file
    and a blank line. *)
Theorem return_value_matches_report lanczos p od mw q w b w' :
  optimize_image lanczos p od mw q w = (Ret b, w') →
  ∃ evs,
    stdout w' = stdout w ++ evs
    ∧ if b then
        (∃ evs', evs = Processing (Pathlib.name p) :: evs'
                         ++ [SizeReport; Saved (output_path p od); Blank])
        ∧ ∃ img', node_at (fs w') (output_path p od) = Some (File (WebP img' q))
      else
        evs = [FileNotFound p]
        ∨ ∃ e evs', evs = Processing (Pathlib.name p) :: evs'
                            ++ [ErrorProcessing (Pathlib.name p) e; Blank].
Proof.
  intros Hrun.
  destruct (optimize_image_transformed lanczos p od mw q w) as (r1 & w1 & Hrun1 & Ht).
  rewrite Hrun in Hrun1. injection Hrun1 as <- <-.
  inversion Ht as [Hn | | e evs _ _ He | img' evs _ _ He _ | img' evs _ _ He _];
    subst; simpl.
  - eexists. split; [done |]. by left.
  - eexists. split; [done |]. right. by exists e, evs.
  - eexists. split; [done |]. right. by exists ValueError, evs.
  - eexists. split; [done |]. split; [by exists evs |].
    exists img'. rewrite node_at_insert by apply output_path_nonempty.
    by rewrite decide_True.
Qed.

Lemma return_value_matches_report_witness :
  let p := ["pics"; "rgba.png"] in
  ∃ w', optimize_image nearest p (Some "out") 300 85 gallery_world = (Ret true, w')
        ∧ stdout w' = [Processing "rgba.png"; NoResizeNeeded 2 1; SizeReport;
                       Saved ["out"; "rgba.webp"]; Blank]
        ∧ ∃ evs,
            stdout w' = stdout gallery_world ++ evs
            ∧ (∃ evs', evs = Processing (Pathlib.name p) :: evs'
                               ++ [SizeReport; Saved (output_path p (Some "out")); Blank])
            ∧ ∃ img', node_at (fs w') (output_path p (Some "out"))
                      = Some (File (WebP img' 85)).
Proof.
  intros p.
  set (run := optimize_image nearest p (Some "out") 300 85 gallery_world).
  assert (H : run = (Ret true, run.2)).
  { rewrite (surjective_pairing run) at 1. f_equal; by vm_compute. }
  exists run.2. split; [exact H |]. split; [by vm_compute |].
  exact (return_value_matches_report nearest p (Some "out") 300 85 gallery_world
           true run.2 H).
Defined.

(** X11: when a regular file is in the way of the supplied output
    directory, the exception of the directory creation leaves the call
    uncaught: [FileExistsError] when the file is at the directory's own
    path, [NotADirectoryError] when it is at one of its ancestors.  By then
    nothing has been printed and nothing written. *)
Theorem mkdir_errors_escape lanczos p s mw q w :
  is_Some (node_at (fs w) p) →
  s ≠ "" →
  blocked (fs w) (Pathlib.Path s) = true →
  optimize_image lanczos p (Some s) mw q w
  = (Raise (if is_file_node (node_at (fs w) (Pathlib.Path s))
            then FileExistsError else NotADirectoryError),
     World (fs w) (stdout w) (stdin w) (isatty w) (calls w ++ [p])).
Proof.
  intros Hp Hs Hb.
  unfold optimize_image, enter, stat, set_output_directory, mkdir_parents, given.
  unfold mbind, M_bind. simpl.
  rewrite bool_decide_true by done. simpl.
  rewrite bool_decide_false by done. simpl.
  destruct (is_file_node (node_at (fs w) (Pathlib.Path s))); [done |].
  by rewrite Hb.
Qed.

Lemma mkdir_errors_escape_witness :
  let p := ["in"; "a.png"] in
  is_Some (node_at (fs batch_world) p)
  ∧ "out/small" ≠ ""
  ∧ blocked (fs batch_world) ["out"; "small"] = true
  ∧ optimize_image nearest p (Some "out/small") 300 85 batch_world
    = (Raise NotADirectoryError, World (fs batch_world) [] [] false [p]).
Proof.
  intros p.
  assert (H1 : is_Some (node_at (fs batch_world) p)) by (vm_compute; eauto).
  assert (H2 : "out/small" ≠ "") by discriminate.
  assert (H3 : blocked (fs batch_world) (Pathlib.Path "out/small") = true)
    by (vm_compute; reflexivity).
  split; [exact H1 |]. split; [exact H2 |]. split; [exact H3 |].
  exact (mkdir_errors_escape nearest p "out/small" 300 85 batch_world H1 H2 H3).
Defined.

(** X12: whatever the transform writes, the batch driver would pick up: the
    output of a successful call is a regular file with the suffix [.webp],
    so a later run over the directory it was written to converts it again. *)
Theorem written_file_is_a_candidate lanczos p od mw q w w' :
  Pathlib.name p ≠ "" →
  optimize_image lanczos p od mw q w = (Ret true, w') →
  Pathlib.suffix (Pathlib.name (output_path p od)) = ".webp"
  ∧ is_image (fs w') (output_path p od) = true
  ∧ output_path p od ∈ candidates (fs w') (resolved_dir p od).
Proof.
  intros Hnm Hrun.
  assert (Hsuf : Pathlib.suffix (Pathlib.name (output_path p od)) = ".webp").
  { unfold output_path, webp_path. rewrite name_snoc.
    by apply suffix_webp, stem_nonempty. }
  destruct (optimize_image_true lanczos p od mw q w w' Hrun)
    as (img & img' & _ & _ & _ & _ & Hfs).
  assert (Hnode : node_at (fs w') (output_path p od) = Some (File (WebP img' q))).
  { rewrite Hfs, node_at_insert by apply output_path_nonempty. by rewrite decide_True. }
  split; [done |].
  assert (Himg : is_image (fs w') (output_path p od) = true).
  { unfold is_image. by rewrite Hnode, Hsuf. }
  split; [done |].
  apply elem_of_candidates. split; [| split].
  - split; [apply output_path_nonempty |].
    unfold output_path, webp_path. apply parent_snoc.
  - exists (WebP img' q).
    pose proof (output_path_nonempty p od) as Hne.
    destruct (output_path p od); [done | exact Hnode].
  - by rewrite Hsuf.
Qed.

Lemma written_file_is_a_candidate_witness :
  let p := ["pics"; "rgba.png"] in
  Pathlib.name p ≠ ""
  ∧ ∃ w', optimize_image nearest p None 300 85 gallery_world = (Ret true, w')
          ∧ Pathlib.suffix (Pathlib.name (output_path p None)) = ".webp"
          ∧ is_image (fs w') (output_path p None) = true
          ∧ output_path p None ∈ candidates (fs w') (resolved_dir p None).
Proof.
  intros p.
  assert (H1 : Pathlib.name p ≠ "") by discriminate.
  set (run := optimize_image nearest p None 300 85 gallery_world).
  assert (H2 : run = (Ret true, run.2)).
  { rewrite (surjective_pairing run) at 1. f_equal; by vm_compute. }
  split; [exact H1 |]. exists run.2. split; [exact H2 |].
  exact (written_file_is_a_candidate nearest p None 300 85 gallery_world run.2 H1 H2).
Defined.

(** ** The batch driver (lines 92-134) *)

Section BatchOutcomes.

Variable lanczos : pixels → Z * Z → Z * Z → pixels.

Implicit Types (p f dir : path) (od : option string) (mw q : Z) (w : world).

Lemma stays_trans f m1 m2 m3 : stays f m1 m2 → stays f m2 m3 → stays f m1 m3.
Proof.
  unfold stays. intros [E1|[N1 D1]] [E2|[N2 D2]].
  - left. congruence.
  - right. split; congruence.
  - right. split; congruence.
  - congruence.
Qed.

(** The loop over any list of images, however it ends. *)
Lemma for_each_image_any images od mw q k w :
  ∃ r w',
    for_each_image lanczos images od mw q k w = (r, w')
    ∧ (∀ f, (∀ p, p ∈ images → f ≠ output_path p od) → stays f (fs w) (fs w'))
    ∧ (∀ f, is_Some (node_at (fs w) f) → is_Some (node_at (fs w') f))
    ∧ (∃ evs, stdout w' = stdout w ++ evs)
    ∧ (∀ e, r = Raise e → e = FileExistsError ∨ e = NotADirectoryError).
Proof.
  revert k w. induction images as [|p images IH]; intros k w; simpl.
  - exists (Ret k), w. split; [done |]. split; [by left |]. split; [done |].
    split; [| done]. exists []. by rewrite app_nil_r.
  - destruct (optimize_image_transformed lanczos p od mw q w) as (r & w1 & Hrun & Ht).
    assert (Hstay1 : ∀ f, f ≠ output_path p od → stays f (fs w) (fs w1)).
    { intros f Hf. by eapply transformed_frame. }
    pose proof (transformed_stdout lanczos _ _ _ _ _ _ _ Ht) as [evs1 Hout1].
    unfold mbind, M_bind. rewrite Hrun. destruct r as [b|e].
    + destruct (IH (if b then S k else k) w1)
        as (r' & w' & -> & Hstay & Hkeep & [evs Hout] & Hexn).
      exists r', w'. split; [done |]. split; [| split; [| split; [| done]]].
      * intros f Hf. apply (stays_trans f _ (fs w1)).
        -- apply Hstay1, Hf. left.
        -- apply Hstay. intros p' Hp'. apply Hf. by right.
      * intros f Hf. apply Hkeep. by eapply transformed_keeps.
      * exists (evs1 ++ evs). by rewrite Hout, Hout1, app_assoc.
    + exists (Raise e), w1. split; [done |]. split; [| split; [| split]].
      * intros f Hf. apply Hstay1, Hf. left.
      * intros f Hf. by eapply transformed_keeps.
      * eauto.
      * intros e' [= <-]. by eapply escaped_exception.
Qed.

(** The batch driver on a directory with at least one image. *)
Lemma optimize_directory_loop dir od mw q w :
  node_at (fs w) dir = Some Dir →
  candidates (fs w) dir ≠ [] →
  optimize_directory lanczos dir od mw q w
  = let images := candidates (fs w) dir in
    match for_each_image lanczos images od mw q 0%nat
            (World (fs w) (stdout w ++ [Found (length images) dir od mw q])
               (stdin w) (isatty w) (calls w)) with
    | (Ret k, w1) =>
        (Ret (), World (fs w1) (stdout w1 ++ [Complete k (length images)])
                   (stdin w1) (isatty w1) (calls w1))
    | (Raise e, w1) => (Raise e, w1)
    end.
Proof.
  intros Hdir Hne. unfold optimize_directory, stat, iterdir, mbind, M_bind; simpl.
  rewrite Hdir. rewrite bool_decide_true by eauto. simpl.
  rewrite Hdir. fold (candidates (fs w) dir).
  destruct (candidates (fs w) dir) as [|f l] eqn:E; [done |].
  unfold print at 1. by destruct (for_each_image _ _ _ _ _ _ _) as [[k|e] w1].
Qed.

Lemma optimize_directory_missing dir od mw q w :
  node_at (fs w) dir = None →
  optimize_directory lanczos dir od mw q w
  = (Ret (), World (fs w) (stdout w ++ [DirectoryNotFound dir]) (stdin w)
               (isatty w) (calls w)).
Proof.
  intros Hdir. unfold optimize_directory, stat, mbind, M_bind; simpl.
  rewrite Hdir. by rewrite bool_decide_false by (by intros [? ?]).
Qed.

Lemma optimize_directory_on_file dir od mw q w c :
  node_at (fs w) dir = Some (File c) →
  optimize_directory lanczos dir od mw q w = (Raise NotADirectoryError, w).
Proof.
  intros Hdir. unfold optimize_directory, stat, iterdir, mbind, M_bind; simpl.
  rewrite Hdir. rewrite bool_decide_true by eauto. simpl. by rewrite Hdir.
Qed.

Lemma optimize_directory_empty dir od mw q w :
  node_at (fs w) dir = Some Dir →
  candidates (fs w) dir = [] →
  optimize_directory lanczos dir od mw q w
  = (Ret (), World (fs w) (stdout w ++ [NoImagesFound dir]) (stdin w)
               (isatty w) (calls w)).
Proof.
  intros Hdir E. unfold optimize_directory, stat, iterdir, mbind, M_bind; simpl.
  rewrite Hdir. rewrite bool_decide_true by eauto. simpl.
  rewrite Hdir. fold (candidates (fs w) dir). by rewrite E.
Qed.

(** The batch driver, however it ends. *)
Lemma optimize_directory_any dir od mw q w :
  ∃ r w',
    optimize_directory lanczos dir od mw q w = (r, w')
    ∧ (∀ f, (∀ p, p ∈ candidates (fs w) dir → f ≠ output_path p od) →
            stays f (fs w) (fs w'))
    ∧ (∀ f, is_Some (node_at (fs w) f) → is_Some (node_at (fs w') f))
    ∧ (∀ e, r = Raise e → e = FileExistsError ∨ e = NotADirectoryError).
Proof.
  destruct (node_at (fs w) dir) as [[|c]|] eqn:Hdir.
  - destruct (candidates (fs w) dir) as [|f0 l] eqn:E.
    + rewrite (optimize_directory_empty dir od mw q w Hdir E).
      do 2 eexists. split; [done |]. simpl. split; [by left | done].
    + rewrite optimize_directory_loop by (done || by rewrite E).
      rewrite E. cbv zeta.
      set (w0 := World _ _ _ _ _).
      destruct (for_each_image_any (f0 :: l) od mw q 0%nat w0)
        as (r & w1 & -> & Hstay & Hkeep & _ & Hexn).
      destruct r as [k|e]; do 2 eexists; (split; [done |]); simpl;
        (split; [exact Hstay |]); (split; [exact Hkeep |]);
        [done | intros e0 [= <-]; by apply Hexn].
  - rewrite (optimize_directory_on_file dir od mw q w c Hdir).
    do 2 eexists. split; [done |]. split; [by left |]. split; [done |].
    intros e [= <-]. by right.
  - rewrite (optimize_directory_missing dir od mw q w Hdir).
    do 2 eexists. split; [done |]. simpl. split; [by left | done].
Qed.

End BatchOutcomes.

(** X13: on a path that is not a directory the batch driver calls nothing
    and changes nothing: where nothing exists it reports that and returns;
    where a regular file exists the listing raises [NotADirectoryError]. *)
Theorem batch_on_non_directory lanczos dir od mw q w :
  node_at (fs w) dir ≠ Some Dir →
  ∃ r w',
    optimize_directory lanczos dir od mw q w = (r, w')
    ∧ fs w' = fs w ∧ calls w' = calls w
    ∧ match node_at (fs w) dir with
      | None => r = Ret () ∧ stdout w' = stdout w ++ [DirectoryNotFound dir]
      | Some _ => r = Raise NotADirectoryError ∧ stdout w' = stdout w
      end.
Proof.
  intros Hdir. destruct (node_at (fs w) dir) as [[|c]|] eqn:E; [done | |].
  - rewrite (optimize_directory_on_file lanczos dir od mw q w c E). eauto 10.
  - rewrite (optimize_directory_missing lanczos dir od mw q w E). eauto 10.
Qed.

Lemma batch_on_non_directory_witness :
  node_at (fs batch_world) ["out"] ≠ Some Dir
  ∧ ∃ r w',
      optimize_directory nearest ["out"] None 300 85 batch_world = (r, w')
      ∧ fs w' = fs batch_world ∧ calls w' = calls batch_world
      ∧ match node_at (fs batch_world) ["out"] with
        | None => r = Ret () ∧ stdout w' = stdout batch_world ++ [DirectoryNotFound ["out"]]
        | Some _ => r = Raise NotADirectoryError ∧ stdout w' = stdout batch_world
        end.
Proof.
  assert (H : node_at (fs batch_world) ["out"] ≠ Some Dir) by (vm_compute; discriminate).
  split; [exact H |].
  exact (batch_on_non_directory nearest ["out"] None 300 85 batch_world H).
Defined.

(** X14: when the directory holds images and the output directory can be
    created, the batch driver returns normally; what it prints starts with
    the line announcing the number of images and ends with the summary line,
    whose total is that number and whose success count does not exceed it. *)
Theorem batch_summary lanczos dir od mw q w :
  node_at (fs w) dir = Some Dir →
  creatable (fs w) od →
  candidates (fs w) dir ≠ [] →
  ∃ w' k evs,
    optimize_directory lanczos dir od mw q w = (Ret (), w')
    ∧ stdout w'
      = stdout w ++ Found (length (candidates (fs w) dir)) dir od mw q :: evs
                 ++ [Complete k (length (candidates (fs w) dir))]
    ∧ (k ≤ length (candidates (fs w) dir))%nat.
Proof.
  intros Hdir Hc Hne.
  rewrite optimize_directory_loop by done. cbv zeta.
  set (n := length (candidates (fs w) dir)).
  set (w0 := World _ _ _ _ _).
  destruct (for_each_image_run lanczos (candidates (fs w) dir) od mw q 0%nat w0 Hc)
    as (k & w1 & Hrun & _ & _ & Hk).
  destruct (for_each_image_any lanczos (candidates (fs w) dir) od mw q 0%nat w0)
    as (r & w1' & Hrun' & _ & _ & [evs Hout] & _).
  rewrite Hrun in Hrun'. injection Hrun' as <- <-.
  rewrite Hrun. exists (World (fs w1) (stdout w1 ++ [Complete k n]) (stdin w1)
                          (isatty w1) (calls w1)), k, evs.
  split; [done |]. simpl. split; [| fold n in Hk; lia].
  rewrite Hout. simpl. by rewrite <- !app_assoc.
Qed.

Lemma batch_summary_witness :
  node_at (fs batch_world) ["in"] = Some Dir
  ∧ creatable (fs batch_world) (Some "web")
  ∧ candidates (fs batch_world) ["in"] ≠ []
  ∧ ∃ w' k evs,
      optimize_directory nearest ["in"] (Some "web") 300 85 batch_world = (Ret (), w')
      ∧ stdout w'
        = stdout batch_world
          ++ Found (length (candidates (fs batch_world) ["in"])) ["in"] (Some "web") 300 85
             :: evs ++ [Complete k (length (candidates (fs batch_world) ["in"]))]
      ∧ (k ≤ length (candidates (fs batch_world) ["in"]))%nat.
Proof.
  assert (H1 : node_at (fs batch_world) ["in"] = Some Dir) by reflexivity.
  assert (H2 : creatable (fs batch_world) (Some "web")) by reflexivity.
  assert (H3 : candidates (fs batch_world) ["in"] ≠ []) by (vm_compute; discriminate).
  repeat (split; [assumption |]).
  exact (batch_summary nearest ["in"] (Some "web") 300 85 batch_world H1 H2 H3).
Defined.



(** X16: a batch run removes nothing: every path that names a file or a
    directory before the run still names one afterwards. *)
Theorem batch_never_removes lanczos dir od mw q w r w' f :
  optimize_directory lanczos dir od mw q w = (r, w') →
  is_Some (node_at (fs w) f) →
  is_Some (node_at (fs w') f).
Proof.
  intros Hrun Hf.
  destruct (optimize_directory_any lanczos dir od mw q w) as (r1 & w1 & Hrun1 & _ & Hkeep & _).
  rewrite Hrun in Hrun1. injection Hrun1 as <- <-.
  by apply Hkeep.
Qed.

Lemma batch_never_removes_witness :
  let run := optimize_directory nearest ["pics"] None 300 85 gallery_world in
  is_Some (node_at (fs gallery_world) ["pics"; "b.webp"])
  ∧ is_Some (node_at (fs run.2) ["pics"; "b.webp"]).
Proof.
  intros run.
  assert (H : is_Some (node_at (fs gallery_world) ["pics"; "b.webp"])) by (vm_compute; eauto).
  split; [exact H |].
  exact (batch_never_removes nearest ["pics"] None 300 85 gallery_world
           run.1 run.2 ["pics"; "b.webp"] (surjective_pairing run) H).
Defined.

Section Extensions.

Lemma letter_lower l c : letter l c → lower_char c = l.
Proof.
  intros [[Hlo Hhi] [-> | Hup]]; unfold lower_char; cbv zeta.
  - destruct (Nat.leb_spec 65 (nat_of_ascii l)), (Nat.leb_spec (nat_of_ascii l) 90),
      (Nat.leb_spec 192 (nat_of_ascii l)); simpl; (done || lia).
  - destruct (Nat.leb_spec 65 (nat_of_ascii c)), (Nat.leb_spec (nat_of_ascii c) 90);
      simpl; try lia.
    rewrite Hup. apply ascii_nat_embedding.
Qed.

Lemma lower_char_range c :
  lower_char c ≠ c →
  (65 ≤ nat_of_ascii c ∧ nat_of_ascii c ≤ 222)%nat
  ∧ lower_char c = ascii_of_nat (nat_of_ascii c + 32).
Proof.
  unfold lower_char; cbv zeta.
  destruct (Nat.leb_spec 65 (nat_of_ascii c)), (Nat.leb_spec (nat_of_ascii c) 90),
    (Nat.leb_spec 192 (nat_of_ascii c)), (Nat.leb_spec (nat_of_ascii c) 222);
    simpl; try done; try (intros _; split; [lia | done]).
  all: destruct (negb _); [intros _; split; [lia | done] | done].
Qed.

Lemma lower_letter l c :
  (97 ≤ nat_of_ascii l ∧ nat_of_ascii l ≤ 122)%nat → lower_char c = l → letter l c.
Proof.
  intros Hl <-. split; [done |].
  destruct (decide (lower_char c = c)) as [E | E]; [left; by rewrite E | right].
  destruct (lower_char_range c E) as [[Hge Hle] ->].
  rewrite nat_ascii_embedding; [done | lia].
Qed.

Lemma letter_not_dot l c : letter l c → c ≠ "."%char.
Proof.
  intros [[Hlo Hhi] [-> | Hup]] ->; change (nat_of_ascii ".") with 46%nat in *; lia.
Qed.

Lemma lower_dot c : lower_char c = "."%char → c = "."%char.
Proof.
  intros H. destruct (decide (lower_char c = c)) as [E | E]; [congruence |].
  destruct (lower_char_range c E) as [[Hge Hle] E'].
  rewrite E' in H. apply (f_equal nat_of_ascii) in H.
  rewrite nat_ascii_embedding in H by lia.
  change (nat_of_ascii ".") with 46%nat in H. lia.
Qed.

Lemma spells_lower word e :
  spells word e → lower e = word ∧ Pathlib.rfind_dot e = None.
Proof.
  revert e. induction word as [|l word IH]; intros [|c e]; simpl; try done.
  intros [Hl Hs]. destruct (IH e Hs) as [-> ->].
  rewrite (letter_lower l c Hl). split; [done |].
  rewrite bool_decide_false; [done | by eapply letter_not_dot].
Qed.

Lemma lower_spells word e : spells word word → lower e = word → spells word e.
Proof.
  revert e. induction word as [|l word IH]; intros [|c e]; simpl; try done.
  intros [[Hl _] Hs] [= Hc He]. split; [by apply lower_letter | by apply IH].
Qed.

Lemma rfind_dot_extension base e :
  Pathlib.rfind_dot e = None →
  Pathlib.rfind_dot (base +:+ "." +:+ e) = Some (String.length base).
Proof.
  intros He. induction base as [|c base IH].
  - rewrite append_nil_l, append_cons, append_nil_l. simpl. by rewrite He.
  - rewrite append_cons. simpl. by rewrite IH.
Qed.

Lemma suffix_extension base e :
  base ≠ "" → e ≠ "" → Pathlib.rfind_dot e = None →
  Pathlib.suffix (base +:+ "." +:+ e) = "." +:+ e.
Proof.
  intros Hb He Hdot. unfold Pathlib.suffix, Pathlib.dot_index.
  rewrite rfind_dot_extension by done.
  rewrite !length_append. simpl String.length.
  rewrite bool_decide_true.
  - replace (String.length base + (1 + String.length e) - String.length base)%nat
      with (String.length ("." +:+ e)) by (rewrite length_append; simpl; lia).
    apply substring_append_r.
  - destruct base; [done |]. destruct e; [done |]. simpl. lia.
Qed.

Lemma spells_extensions ext : ext ∈ extensions → spells ext ext ∧ ext ≠ "".
Proof.
  unfold extensions. rewrite !elem_of_cons, elem_of_nil.
  intros [-> | [-> | [-> | [-> | [-> | [-> | [-> | []]]]]]]];
    (split; [| done]); simpl; unfold letter;
    repeat split; (apply Nat.leb_le; by vm_compute) || (by left).
Qed.

Lemma supported_formats_extensions s :
  s ∈ supported_formats ↔ ∃ ext, ext ∈ extensions ∧ s = "." +:+ ext.
Proof.
  unfold supported_formats, extensions. split.
  - rewrite !elem_of_union, !elem_of_singleton.
    intros [[[[[[-> | ->] | ->] | ->] | ->] | ->] | ->];
      eexists; (split; [| reflexivity]); rewrite !elem_of_cons; tauto.
  - intros (ext & Hext & ->). revert Hext. rewrite !elem_of_cons, elem_of_nil.
    intros [-> | [-> | [-> | [-> | [-> | [-> | [-> | []]]]]]]];
      rewrite !elem_of_union, !elem_of_singleton; tauto.
Qed.

(** The test of line 114, [f.suffix.lower() in supported_formats], holds
    exactly of the names with one of the seven extensions in any case. *)
Lemma supported_suffix nm :
  lower (Pathlib.suffix nm) ∈ supported_formats
  ↔ ∃ ext, ext ∈ extensions ∧ has_extension nm ext.
Proof.
  rewrite supported_formats_extensions. split.
  - intros (ext & Hext & Hlow). exists ext. split; [done |].
    destruct (spells_extensions ext Hext) as [Hword _].
    destruct (Pathlib.suffix nm) as [|c e] eqn:Hsuf; [done |].
    rewrite append_cons, append_nil_l in Hlow. simpl in Hlow.
    injection Hlow as Hc He. apply lower_dot in Hc as ->.
    exists (Pathlib.stem nm), e. split; [| split].
    + rewrite append_cons, append_nil_l, <- Hsuf. symmetry. apply stem_suffix.
    + apply stem_nonempty. intros ->. done.
    + by apply lower_spells.
  - intros (ext & Hext & base & e & -> & Hbase & Hsp). exists ext. split; [done |].
    destruct (spells_extensions ext Hext) as [_ Hne].
    destruct (spells_lower ext e Hsp) as [Hlow Hdot].
    rewrite suffix_extension; [| done | | done].
    + rewrite append_cons, append_nil_l. simpl. by rewrite Hlow.
    + intros ->. by destruct ext.
Qed.

End Extensions.

(** X23: when the directory exists and no regular file is in the way of a
    supplied output directory, the batch driver returns after calling the
    transform exactly once for each regular file directly inside the
    directory whose name has one of the extensions png, jpg, jpeg, gif, bmp,
    tiff, webp, in capitals or small letters, and for nothing else:
    sub-directories, the files below them and files with other names are
    left alone.  (What happens when the output directory cannot be made is
    the subject of C4 and C5.) *)
Theorem batch_selects_supported_files lanczos dir od mw q w :
  node_at (fs w) dir = Some Dir →
  (∀ s, od = Some s → s ≠ "" → blocked (fs w) (Pathlib.Path s) = false) →
  ∃ w' images,
    optimize_directory lanczos dir od mw q w = (Ret (), w')
    ∧ calls w' = calls w ++ images
    ∧ NoDup images
    ∧ ∀ f, f ∈ images ↔
             ∃ x ext c, f = dir ++ [x]
                        ∧ ext ∈ extensions ∧ has_extension x ext
                        ∧ fs w !! f = Some (File c).
Proof.
  intros Hdir Hfree.
  assert (Hc : creatable (fs w) od).
  { unfold creatable, given. destruct od as [s|]; [| done].
    case_bool_decide; [done | by apply Hfree]. }
  destruct (optimize_directory_run lanczos dir od mw q w Hdir Hc) as (w' & Hrun & Hcalls & _).
  exists w', (candidates (fs w) dir).
  split; [done |]. split; [done |]. split; [apply NoDup_candidates |].
  intros f. rewrite elem_of_candidates, supported_suffix. unfold is_child. split.
  - intros ((Hne & Hpar) & (c & Hfile) & ext & Hext & Hhas).
    destruct (path_snoc f Hne) as (l & x & ->).
    rewrite parent_snoc in Hpar. subst l. rewrite name_snoc in Hhas.
    by exists x, ext, c.
  - intros (x & ext & c & -> & Hext & Hhas & Hfile).
    split; [| split].
    + split; [by destruct dir | apply parent_snoc].
    + by exists c.
    + exists ext. by rewrite name_snoc.
Qed.

Lemma batch_selects_supported_files_witness :
  let dir := ["in"] in
  node_at (fs batch_world) dir = Some Dir
  ∧ blocked (fs batch_world) ["web"] = false
  ∧ has_extension "b.JPG" "jpg"
  ∧ ∃ w', optimize_directory nearest dir (Some "web") 300 85 batch_world = (Ret (), w')
          ∧ calls w' ≡ₚ [["in"; "a.png"]; ["in"; "b.JPG"]].
Proof.
  intros dir.
  assert (H1 : node_at (fs batch_world) dir = Some Dir) by reflexivity.
  assert (H2 : ∀ s, Some "web" = Some s → s ≠ "" →
               blocked (fs batch_world) (Pathlib.Path s) = false)
    by (intros s [= <-] _; vm_compute; reflexivity).
  assert (H3 : has_extension "b.JPG" "jpg").
  { exists "b", "JPG". split; [reflexivity |]. split; [discriminate |].
    simpl. unfold letter.
    repeat split; (apply Nat.leb_le; by vm_compute) || (right; by vm_compute). }
  split; [exact H1 |]. split; [exact (H2 _ eq_refl ltac:(discriminate)) |].
  split; [exact H3 |].
  destruct (batch_selects_supported_files nearest dir (Some "web") 300 85 batch_world H1 H2)
    as (w' & images & Hrun & _).
  exists w'. split; [exact Hrun |].
  assert (Hw : w' = (optimize_directory nearest dir (Some "web") 300 85 batch_world).2)
    by (by rewrite Hrun).
  rewrite Hw. by vm_compute.
Defined.

(** ** The command line (lines 137-217) *)

Section MainOutcomes.

Variable lanczos : pixels → Z * Z → Z * Z → pixels.
Variable int_of_str : string → option Z.

Implicit Types (w : world) (args : list string).

(** The option loop keeps the width positive and the quality in range. *)
Lemma parse_options_valid args od mw q w od' mw' q' w' :
  parse_options int_of_str args od mw q w = (Ret (od', mw', q'), w') →
  (∀ n, mw = Some n → 0 < n) →
  0 ≤ q ≤ 100 →
  (∀ n, mw' = Some n → 0 < n) ∧ 0 ≤ q' ≤ 100.
Proof.
  remember (length args) as len eqn:Hlen.
  assert (Hle : (length args ≤ len)%nat) by lia. clear Hlen.
  revert args od mw q w Hle.
  induction len as [|len IH]; intros args od mw q w Hle Hrun Hmw Hq.
  { destruct args; [| simpl in Hle; lia]. simpl in Hrun.
    injection Hrun as <- <- <- <-. done. }
  destruct args as [|arg rest]; simpl in Hrun.
  { injection Hrun as <- <- <- <-. done. }
  assert (Hskip : (print (UnknownArgument arg);;
                   parse_options int_of_str rest od mw q) w = (Ret (od', mw', q'), w') →
                  (∀ n, mw' = Some n → 0 < n) ∧ 0 ≤ q' ≤ 100).
  { unfold print, mbind, M_bind. intros H.
    eapply (IH rest); [simpl in Hle; lia | | done..].
    destruct (parse_options int_of_str rest od mw q _) as [[v|e] w1] eqn:E; [| done].
    rewrite <- H. exact E. }
  destruct rest as [|value rest']; [by apply Hskip |].
  simpl in Hle.
  destruct (bool_decide (arg = "--output")).
  { eapply (IH rest'); [lia | done..]. }
  destruct (bool_decide (arg = "--width")).
  { destruct (int_of_str value) as [n|]; [| done].
    destruct (Z.leb_spec n 0); [done |].
    eapply (IH rest'); [lia | done | | done].
    intros n' [= <-]. lia. }
  destruct (bool_decide (arg = "--quality")); [| by apply Hskip].
  destruct (int_of_str value) as [n|]; [| done].
  destruct (Z.leb_spec 0 n), (Z.leb_spec n 100); simpl in Hrun; try done.
  eapply (IH rest'); [lia | done | done | lia].
Qed.

(** The width handed on is positive. *)
Lemma resolve_width_positive mw w n w' :
  resolve_width int_of_str mw w = (Ret n, w') →
  (∀ m, mw = Some m → 0 < m) →
  0 < n.
Proof.
  unfold resolve_width. destruct mw as [m|].
  { intros [= <- <-] H. by apply H. }
  unfold mbind, M_bind, print, input; simpl. intros Hrun _.
  destruct (isatty w); [| injection Hrun as <-; lia].
  destruct (stdin w) as [|line rest]; simpl in Hrun; [done |].
  destruct (if bool_decide (strip line = "") then Some 300 else int_of_str (strip line))
    as [m|].
  - destruct (Z.leb_spec m 0); injection Hrun as <-; lia.
  - injection Hrun as <-. lia.
Qed.

End MainOutcomes.

(** X17: the width and the quality that [main] hands to the converters are
    validated: whatever the options and whatever is typed at the prompt, the
    width is positive and the quality lies between 0 and 100. *)
Theorem validated_parameters int_of_str options w od mw q w1 n w2 :
  parse_options int_of_str options None None 85 w = (Ret (od, mw, q), w1) →
  resolve_width int_of_str mw w1 = (Ret n, w2) →
  0 < n ∧ 0 ≤ q ≤ 100.
Proof.
  intros Hparse Hwidth.
  destruct (parse_options_valid int_of_str options None None 85 w od mw q w1 Hparse)
    as [Hmw Hq]; [done | lia |].
  split; [| done]. by eapply resolve_width_positive.
Qed.

Lemma validated_parameters_witness :
  let options := ["--quality"; "40"; "--output"; "web"] in
  ∃ w1 w2,
    parse_options decimal options None None 85 gallery_world = (Ret (Some "web", None, 40), w1)
    ∧ resolve_width decimal None w1 = (Ret 300, w2)
    ∧ 0 < 300 ∧ 0 ≤ 40 ≤ 100.
Proof.
  intros options.
  set (r1 := parse_options decimal options None None 85 gallery_world).
  assert (H1 : r1 = (Ret (Some "web", None, 40), r1.2)).
  { rewrite (surjective_pairing r1) at 1. f_equal; by vm_compute. }
  set (r2 := resolve_width decimal None r1.2).
  assert (H2 : r2 = (Ret 300, r2.2)).
  { rewrite (surjective_pairing r2) at 1. f_equal; by vm_compute. }
  exists r1.2, r2.2. split; [exact H1 |]. split; [exact H2 |].
  exact (validated_parameters decimal options gallery_world (Some "web") None 40
           r1.2 300 r2.2 H1 H2).
Defined.

(** X18: [main] ends with exit status 0 or 1, and whenever it ends through
    [sys.exit] (no path argument, a bad option value, a path that is neither
    a file nor a directory) the status is 1, no converter has been called
    and the file system is as it was. *)
Theorem exit_status_and_early_exits lanczos int_of_str argv w r w' :
  main lanczos int_of_str argv w = (r, w') →
  (exit_status r = 0 ∨ exit_status r = 1)
  ∧ (∀ c, r = Raise (SystemExit c) → c = 1 ∧ fs w' = fs w ∧ calls w' = calls w).
Proof.
  intros Hrun.
  assert (Hmkdir : ∀ e, e = FileExistsError ∨ e = NotADirectoryError →
            (exit_status (Raise e) = 0 ∨ exit_status (Raise e) = 1)
            ∧ (∀ c, @Raise unit e = Raise (SystemExit c) →
                    c = 1 ∧ fs w' = fs w ∧ calls w' = calls w)).
  { intros e [-> | ->]; (split; [by right | done]). }
  cut (∃ r0 w0, main lanczos int_of_str argv w = (r0, w0)
                ∧ ((exit_status r0 = 0 ∨ exit_status r0 = 1)
                   ∧ (∀ c, r0 = Raise (SystemExit c) →
                           c = 1 ∧ fs w0 = fs w ∧ calls w0 = calls w)
                   ∨ ∃ e, r0 = Raise e ∧ (e = FileExistsError ∨ e = NotADirectoryError))).
  { intros (r0 & w0 & Hrun0 & H). rewrite Hrun in Hrun0. injection Hrun0 as <- <-.
    destruct H as [H | (e & -> & He)]; [done | by apply Hmkdir]. }
  clear Hrun Hmkdir r w'.
  unfold main. unfold mbind at 1, M_bind at 1, print at 1.
  set (w0 := World _ _ _ _ _).
  destruct argv as [|prog [|arg1 options]].
  1, 2: do 2 eexists; (split; [reflexivity |]); left; simpl;
        (split; [by right | by intros c [= <-]]).
  destruct (parse_options_run int_of_str options None None 85 w0)
    as (r1 & w1 & Hrun1 & Hfs1 & Hcalls1 & _ & _ & Hr1).
  unfold mbind at 1, M_bind at 1. rewrite Hrun1.
  destruct Hr1 as [-> | [[[od mw] q] ->]].
  { do 2 eexists. split; [reflexivity |]. left.
    split; [by right |]. intros c [= <-]. by rewrite Hfs1, Hcalls1. }
  destruct (resolve_width_run int_of_str mw w1) as (r2 & w2 & Hrun2 & Hfs2 & Hcalls2 & Hr2).
  unfold mbind at 1, M_bind at 1. rewrite Hrun2.
  destruct Hr2 as [-> | [n ->]].
  { do 2 eexists. split; [reflexivity |]. left. split; [by right | done]. }
  unfold stat, mbind at 1, M_bind at 1.
  destruct (node_at (fs w2) (Pathlib.Path arg1)) as [[|c]|]; simpl.
  - destruct (optimize_directory_any lanczos (Pathlib.Path arg1) od n q w2)
      as (r3 & w3 & -> & _ & _ & Hexn).
    do 2 eexists. split; [reflexivity |].
    destruct r3 as [[]|e]; [left; split; [by left | done] | right; eauto].
  - destruct (optimize_image_transformed lanczos (Pathlib.Path arg1) od n q w2)
      as (r3 & w3 & Hrun3 & _).
    unfold mbind, M_bind. rewrite Hrun3.
    destruct r3 as [b|e]; do 2 eexists; (split; [reflexivity |]);
      [left; split; [by left | done] |].
    right. exists e. split; [done |]. by eapply escaped_exception.
  - do 2 eexists. split; [reflexivity |]. left. simpl.
    split; [by right |]. intros c' [= <-].
    by rewrite Hfs2, Hcalls2, Hfs1, Hcalls1.
Qed.

Lemma exit_status_and_early_exits_witness :
  let argv := ["optimize-images.py"; "pics"; "--quality"; "101"] in
  ∃ w', main nearest decimal argv gallery_world = (Raise (SystemExit 1), w')
        ∧ (exit_status (Raise (SystemExit 1)) = 0 ∨ exit_status (Raise (SystemExit 1)) = 1)
        ∧ (∀ c, @Raise unit (SystemExit 1) = Raise (SystemExit c) →
                c = 1 ∧ fs w' = fs gallery_world ∧ calls w' = calls gallery_world).
Proof.
  intros argv.
  set (run := main nearest decimal argv gallery_world).
  assert (H : run = (Raise (SystemExit 1), run.2)).
  { rewrite (surjective_pairing run) at 1. f_equal; by vm_compute. }
  exists run.2. split; [exact H |].
  exact (exit_status_and_early_exits nearest decimal argv gallery_world
           (Raise (SystemExit 1)) run.2 H).
Defined.

(** X19: for an existing regular file whose options are valid, [main] makes
    one call to the transform and ends with status 0 whether the conversion
    succeeds or not; only an output directory that cannot be created makes
    it end otherwise. *)
Theorem single_file_exits_zero lanczos int_of_str prog s options w c od mw q w1 n w2 :
  node_at (fs w) (Pathlib.Path s) = Some (File c) →
  parse_options int_of_str options None None 85
    (World (fs w) (stdout w ++ [Banner]) (stdin w) (isatty w) (calls w))
  = (Ret (od, mw, q), w1) →
  resolve_width int_of_str mw w1 = (Ret n, w2) →
  creatable (fs w) od →
  ∃ b w3,
    optimize_image lanczos (Pathlib.Path s) od n q w2 = (Ret b, w3)
    ∧ main lanczos int_of_str (prog :: s :: options) w = (Ret (), w3)
    ∧ exit_status (Ret ()) = 0
    ∧ calls w3 = calls w ++ [Pathlib.Path s].
Proof.
  intros Hfile Hparse Hwidth Hc.
  destruct (parse_options_run int_of_str options None None 85
              (World (fs w) (stdout w ++ [Banner]) (stdin w) (isatty w) (calls w)))
    as (r1 & w1' & Hrun1 & Hfs1 & Hcalls1 & _).
  rewrite Hparse in Hrun1. injection Hrun1 as <- <-.
  destruct (resolve_width_run int_of_str mw w1) as (r2 & w2' & Hrun2 & Hfs2 & Hcalls2 & _).
  rewrite Hwidth in Hrun2. injection Hrun2 as <- <-.
  simpl in Hfs1, Hcalls1.
  destruct (optimize_image_transformed lanczos (Pathlib.Path s) od n q w2)
    as (r3 & w3 & Hrun3 & Ht).
  assert (Hc2 : creatable (fs w2) od) by by rewrite Hfs2, Hfs1.
  destruct (transformed_creatable _ _ _ _ _ _ _ _ Ht Hc2) as [[b ->] _].
  exists b, w3. split; [done |]. split; [| split; [done |]].
  - unfold main. unfold mbind at 1, M_bind at 1, print at 1.
    unfold mbind at 1, M_bind at 1. rewrite Hparse.
    unfold mbind at 1, M_bind at 1. rewrite Hwidth.
    unfold stat, mbind at 1, M_bind at 1.
    rewrite Hfs2, Hfs1, Hfile. simpl.
    unfold mbind, M_bind. by rewrite Hrun3.
  - rewrite (transformed_calls _ _ _ _ _ _ _ _ Ht). by rewrite Hcalls2, Hcalls1.
Qed.

Lemma single_file_exits_zero_witness :
  let s := "pics/a.png" in
  let options := ["--width"; "100"] in
  let w := gallery_world in
  let w0 := World (fs w) (stdout w ++ [Banner]) (stdin w) (isatty w) (calls w) in
  ∃ w1 w2,
    node_at (fs w) (Pathlib.Path s) = Some (File (Picture (solid (200, 150) (1, 2, 3))))
    ∧ parse_options decimal options None None 85 w0 = (Ret (None, Some 100, 85), w1)
    ∧ resolve_width decimal (Some 100) w1 = (Ret 100, w2)
    ∧ creatable (fs w) None
    ∧ ∃ b w3,
        optimize_image nearest (Pathlib.Path s) None 100 85 w2 = (Ret b, w3)
        ∧ main nearest decimal ("optimize-images.py" :: s :: options) w = (Ret (), w3)
        ∧ exit_status (Ret ()) = 0
        ∧ calls w3 = calls w ++ [Pathlib.Path s].
Proof.
  intros s options w w0.
  set (r1 := parse_options decimal options None None 85 w0).
  assert (H1 : r1 = (Ret (None, Some 100, 85), r1.2)).
  { rewrite (surjective_pairing r1) at 1. f_equal; by vm_compute. }
  set (r2 := resolve_width decimal (Some 100) r1.2).
  assert (H2 : r2 = (Ret 100, r2.2)).
  { rewrite (surjective_pairing r2) at 1. f_equal; by vm_compute. }
  assert (H0 : node_at (fs w) (Pathlib.Path s)
               = Some (File (Picture (solid (200, 150) (1, 2, 3))))) by reflexivity.
  exists r1.2, r2.2. split; [exact H0 |]. split; [exact H1 |]. split; [exact H2 |].
  split; [exact I |].
  exact (single_file_exits_zero nearest decimal "optimize-images.py" s options w _
           None (Some 100) 85 r1.2 100 r2.2 H0 H1 H2 I).
Defined.

Section Strip.

Lemma is_space_blank c : is_space c = true ↔ blank_char c.
Proof.
  unfold is_space, blank_char, whitespace.
  generalize (nat_of_ascii c). intros n.
  rewrite !orb_true_iff, !andb_true_iff, !Nat.leb_le, !Nat.eqb_eq.
  rewrite !elem_of_cons, elem_of_nil. lia.
Qed.

Lemma snoc_nonempty (t : string) c : t +:+ String c "" ≠ "".
Proof. by destruct t. Qed.

Lemma lstrip_spec s :
  ∃ a, s = a +:+ lstrip s ∧ blank a ∧ ∀ c t', lstrip s = String c t' → ¬ blank_char c.
Proof.
  induction s as [|c s (a & Hs & Ha & Hhead)]; simpl.
  - exists "". by repeat split.
  - destruct (is_space c) eqn:Hc.
    + exists (String c a). rewrite append_cons, <- Hs.
      split; [done |]. split; [| done].
      split; [by apply is_space_blank | done].
    + exists "". split; [done |]. split; [done |].
      intros c' t' [= <- <-]. rewrite <- is_space_blank. by rewrite Hc.
Qed.

Lemma rstrip_spec s :
  ∃ b, s = rstrip s +:+ b ∧ blank b
       ∧ ∀ t' c, rstrip s = t' +:+ String c "" → ¬ blank_char c.
Proof.
  induction s as [|c s (b & Hs & Hb & Hlast)]; simpl.
  - exists "". split; [done |]. split; [done |].
    intros t' c E. symmetry in E. by apply snoc_nonempty in E.
  - destruct (rstrip s) as [|d t] eqn:Hr.
    + rewrite append_nil_l in Hs. subst b.
      destruct (is_space c) eqn:Hc.
      * exists (String c s). split; [done |].
        split; [split; [by apply is_space_blank | done] |].
        intros t' c' E. symmetry in E. by apply snoc_nonempty in E.
      * exists s. split; [done |]. split; [done |].
        intros [|x t'] c' E.
        -- rewrite append_nil_l in E. injection E as <-.
           rewrite <- is_space_blank. by rewrite Hc.
        -- rewrite append_cons in E. injection E as _ E.
           symmetry in E. by apply snoc_nonempty in E.
    + exists b. rewrite append_cons, <- Hs. split; [done |]. split; [done |].
      intros [|x t'] c' E.
      * rewrite append_nil_l in E. by injection E.
      * rewrite append_cons in E. injection E as _ E. by apply (Hlast t' c').
Qed.

Lemma rstrip_head s c t : rstrip s = String c t → ∃ s', s = String c s'.
Proof.
  destruct s as [|c' s]; simpl; [done |].
  destruct (rstrip s); [destruct (is_space c') |]; intros [= <- <-]; eauto.
Qed.

(** [strip] removes the white space at the two ends, and nothing else. *)
Lemma strip_trimmed s : trimmed s (strip s).
Proof.
  unfold strip.
  destruct (lstrip_spec s) as (a & Hs & Ha & Hhead).
  destruct (rstrip_spec (lstrip s)) as (b & Hl & Hb & Hlast).
  split; [| split; [| done]].
  - exists a, b. by rewrite <- Hl.
  - intros c t' E. destruct (rstrip_head _ _ _ E) as [s' Hs']. by eapply Hhead.
Qed.

Lemma blank_append a b : blank (a +:+ b) ↔ blank a ∧ blank b.
Proof.
  induction a as [|c a IH]; [rewrite append_nil_l; simpl; tauto |].
  rewrite append_cons. simpl. rewrite IH. tauto.
Qed.

Lemma string_snoc (t : string) : t ≠ "" → ∃ u c, t = u +:+ String c "".
Proof.
  induction t as [|c t IH]; [done |]. intros _.
  destruct t as [|d t]; [by exists "", c |].
  destruct IH as (u & c' & ->); [done |]. by exists (String c u), c'.
Qed.

Lemma blank_no_end t : blank t → (∀ u c, t = u +:+ String c "" → ¬ blank_char c) → t = "".
Proof.
  intros Hb Hlast. destruct (decide (t = "")) as [|Hne]; [done |].
  destruct (string_snoc t Hne) as (u & c & ->).
  apply blank_append in Hb as [_ [Hc _]]. by destruct (Hlast u c).
Qed.

(** Two strings without white space at the end that agree up to white
    space behind them are equal. *)
Lemma trimmed_right_unique t t' b b' :
  t +:+ b = t' +:+ b' → blank b → blank b' →
  (∀ u c, t = u +:+ String c "" → ¬ blank_char c) →
  (∀ u c, t' = u +:+ String c "" → ¬ blank_char c) →
  t = t'.
Proof.
  revert t'. induction t as [|c t IH]; intros t' E Hb Hb' Hlast Hlast'.
  - rewrite append_nil_l in E. symmetry. apply blank_no_end; [| done].
    rewrite E in Hb. by apply blank_append in Hb as [? _].
  - destruct t' as [|c' t'].
    + rewrite append_nil_l in E. apply blank_no_end; [| done].
      rewrite <- E in Hb'. by apply blank_append in Hb' as [? _].
    + rewrite !append_cons in E. injection E as <- E. f_equal.
      apply (IH t' E Hb Hb').
      * intros u c0 ->. by apply (Hlast (String c u) c0).
      * intros u c0 ->. by apply (Hlast' (String c u) c0).
Qed.

(** The line without the white space at its ends is determined by the
    line. *)
Lemma trimmed_unique s t t' : trimmed s t → trimmed s t' → t = t'.
Proof.
  intros ((a & b & Hs & Ha & Hb) & Hhead & Hlast)
         ((a' & b' & Hs' & Ha' & Hb') & Hhead' & Hlast').
  rewrite Hs in Hs'. clear Hs.
  revert a' Hs' Ha'. induction a as [|c a IH]; intros a' E Ha'.
  - rewrite append_nil_l in E.
    destruct a' as [|c' a'].
    + rewrite append_nil_l in E. by eapply trimmed_right_unique.
    + rewrite append_cons in E. destruct Ha' as [Hc' Ha'].
      destruct t as [|c t].
      * rewrite append_nil_l in E. rewrite E in Hb. simpl in Hb.
        destruct Hb as [_ Hb]. apply blank_append in Hb as [_ Hb].
        apply blank_append in Hb as [Hb _].
        symmetry. apply blank_no_end; done.
      * rewrite append_cons in E. injection E as -> _. by destruct (Hhead c' t).
  - destruct Ha as [Hc Ha]. rewrite append_cons in E.
    destruct a' as [|c' a'].
    + rewrite append_nil_l in E.
      destruct t' as [|c' t'].
      * rewrite append_nil_l in E. rewrite <- E in Hb'. simpl in Hb'.
        destruct Hb' as [_ Hb']. apply blank_append in Hb' as [_ Hb'].
        apply blank_append in Hb' as [Hb' _].
        apply blank_no_end; done.
      * rewrite append_cons in E. injection E as <- _. by destruct (Hhead' c t').
    + rewrite append_cons in E. injection E as _ E. destruct Ha' as [_ Ha'].
      by apply (IH Ha a').
Qed.

End Strip.

(** X20: at a terminal without [--width], any line typed at the prompt
    gives a width and never an error exit.  With [t] the line without the
    white space at its two ends: an empty [t] gives 300 silently, a positive
    number gives that number silently, and a number that is not positive or
    anything that is no number gives 300 after one error line. *)
Theorem prompt_always_yields_a_width int_of_str w line rest t :
  isatty w = true →
  stdin w = line :: rest →
  trimmed line t →
  ∃ n evs,
    resolve_width int_of_str None w
    = (Ret n, World (fs w) (stdout w ++ PromptWidth :: evs) rest (isatty w) (calls w))
    ∧ 0 < n
    ∧ (t = "" → n = 300 ∧ evs = [])
    ∧ (∀ k, t ≠ "" → int_of_str t = Some k → 0 < k → n = k ∧ evs = [])
    ∧ (∀ k, t ≠ "" → int_of_str t = Some k → k ≤ 0 → n = 300 ∧ evs = [InvalidInput])
    ∧ (t ≠ "" → int_of_str t = None → n = 300 ∧ evs = [InvalidInput]).
Proof.
  intros Htty Hin Ht.
  rewrite (trimmed_unique line t (strip line) Ht (strip_trimmed line)). clear Ht.
  unfold resolve_width, mbind, M_bind, print, input; simpl.
  rewrite Htty, Hin; simpl. rewrite ?Htty.
  case_bool_decide as Hblank.
  - exists 300, []. split; [reflexivity |]. split; [lia |]. by repeat split.
  - destruct (int_of_str (strip line)) as [m|] eqn:Hm.
    + destruct (Z.leb_spec m 0) as [Hle|Hgt].
      * exists 300, [InvalidInput].
        split; [simpl; by rewrite <- app_assoc |].
        split; [lia |]. split; [done |].
        split; [intros k _ [= <-]; lia |]. by split.
      * exists m, [].
        split; [reflexivity |]. split; [lia |].
        split; [done |]. split; [by intros k _ [= <-] |].
        split; [intros k _ [= <-]; lia | done].
    + exists 300, [InvalidInput].
      split; [simpl; by rewrite <- app_assoc |].
      split; [lia |]. by repeat split.
Qed.

Lemma prompt_always_yields_a_width_witness :
  let line := String "028" (" 640 " +:+ String "160" (String "009" "")) in
  let w := World ∅ [] [line; "next"] true [] in
  isatty w = true
  ∧ stdin w = line :: ["next"]
  ∧ trimmed line "640"
  ∧ resolve_width decimal None w = (Ret 640, World ∅ [PromptWidth] ["next"] true []).
Proof.
  intros line w.
  assert (H1 : isatty w = true) by reflexivity.
  assert (H2 : stdin w = line :: ["next"]) by reflexivity.
  assert (H3 : trimmed line "640").
  { split; [| split].
    - exists (String "028" " "), (" " +:+ String "160" (String "009" "")).
      split; [reflexivity |]. split.
      + split; [| split; [| exact I]];
          refine (bool_decide_unpack (_ ∈ whitespace) _); by vm_compute.
      + split; [| split; [| split; [| exact I]]];
          refine (bool_decide_unpack (_ ∈ whitespace) _); by vm_compute.
    - intros c t' [= <- <-].
      refine (bool_decide_unpack (_ ∉ whitespace) _); by vm_compute.
    - intros t' c E.
      assert (Hc : c = "0"%char).
      { destruct t' as [|c0 [|c1 [|c2 t']]]; cbv in E; try discriminate E.
        - by injection E.
        - injection E as _ _ _ E. by destruct t'. }
      rewrite Hc. refine (bool_decide_unpack (_ ∉ whitespace) _); by vm_compute. }
  split; [exact H1 |]. split; [exact H2 |]. split; [exact H3 |].
  destruct (prompt_always_yields_a_width decimal w line ["next"] "640" H1 H2 H3)
    as (n & evs & Hrun & _ & _ & Hnum & _).
  destruct (Hnum 640 ltac:(discriminate) eq_refl eq_refl) as [-> ->].
  exact Hrun.
Defined.

(** X21: for a directory whose options are valid and whose output directory
    can be created, [main] calls the transform on every candidate of the
    directory and ends with status 0, however many of the conversions
    fail. *)
Theorem directory_run_exits_zero lanczos int_of_str prog s options w od mw q w1 n w2 :
  node_at (fs w) (Pathlib.Path s) = Some Dir →
  parse_options int_of_str options None None 85
    (World (fs w) (stdout w ++ [Banner]) (stdin w) (isatty w) (calls w))
  = (Ret (od, mw, q), w1) →
  resolve_width int_of_str mw w1 = (Ret n, w2) →
  creatable (fs w) od →
  ∃ w3,
    main lanczos int_of_str (prog :: s :: options) w = (Ret (), w3)
    ∧ exit_status (Ret ()) = 0
    ∧ calls w3 = calls w ++ candidates (fs w) (Pathlib.Path s).
Proof.
  intros Hdir Hparse Hwidth Hc.
  destruct (parse_options_run int_of_str options None None 85
              (World (fs w) (stdout w ++ [Banner]) (stdin w) (isatty w) (calls w)))
    as (r1 & w1' & Hrun1 & Hfs1 & Hcalls1 & _).
  rewrite Hparse in Hrun1. injection Hrun1 as <- <-.
  destruct (resolve_width_run int_of_str mw w1) as (r2 & w2' & Hrun2 & Hfs2 & Hcalls2 & _).
  rewrite Hwidth in Hrun2. injection Hrun2 as <- <-.
  simpl in Hfs1, Hcalls1.
  assert (Hfs : fs w2 = fs w) by by rewrite Hfs2, Hfs1.
  destruct (optimize_directory_run lanczos (Pathlib.Path s) od n q w2)
    as (w3 & Hrun3 & Hcalls3 & _); [by rewrite Hfs | by rewrite Hfs |].
  exists w3. split; [| split; [done |]].
  - unfold main. unfold mbind at 1, M_bind at 1, print at 1.
    unfold mbind at 1, M_bind at 1. rewrite Hparse.
    unfold mbind at 1, M_bind at 1. rewrite Hwidth.
    unfold stat, mbind at 1, M_bind at 1.
    rewrite Hfs, Hdir. simpl. exact Hrun3.
  - by rewrite Hcalls3, Hfs, Hcalls2, Hcalls1.
Qed.

Lemma directory_run_exits_zero_witness :
  let s := "pics" in
  let options := ["--width"; "100"] in
  let w := gallery_world in
  let w0 := World (fs w) (stdout w ++ [Banner]) (stdin w) (isatty w) (calls w) in
  ∃ w1 w2,
    node_at (fs w) (Pathlib.Path s) = Some Dir
    ∧ parse_options decimal options None None 85 w0 = (Ret (None, Some 100, 85), w1)
    ∧ resolve_width decimal (Some 100) w1 = (Ret 100, w2)
    ∧ creatable (fs w) None
    ∧ ∃ w3,
        main nearest decimal ("optimize-images.py" :: s :: options) w = (Ret (), w3)
        ∧ exit_status (Ret ()) = 0
        ∧ calls w3 = calls w ++ candidates (fs w) (Pathlib.Path s).
Proof.
  intros s options w w0.
  set (r1 := parse_options decimal options None None 85 w0).
  assert (H1 : r1 = (Ret (None, Some 100, 85), r1.2)).
  { rewrite (surjective_pairing r1) at 1. f_equal; by vm_compute. }
  set (r2 := resolve_width decimal (Some 100) r1.2).
  assert (H2 : r2 = (Ret 100, r2.2)).
  { rewrite (surjective_pairing r2) at 1. f_equal; by vm_compute. }
  assert (H0 : node_at (fs w) (Pathlib.Path s) = Some Dir) by reflexivity.
  exists r1.2, r2.2. split; [exact H0 |]. split; [exact H1 |]. split; [exact H2 |].
  split; [exact I |].
  exact (directory_run_exits_zero nearest decimal "optimize-images.py" s options w
           None (Some 100) 85 r1.2 100 r2.2 H0 H1 H2 I).
Defined.

(** X22: a wider image that is written has the maximum width and the height
    lines 60-61 compute, [int(original_height * (max_width / original_width))]
    in double precision; both are at least 1. *)
Theorem wider_image_dimensions lanczos p od mw q w w' img :
  decode (node_at (fs w) p) = Ret img →
  (size img).1 > mw →
  optimize_image lanczos p od mw q w = (Ret true, w') →
  ∃ img' nh,
    node_at (fs w') (output_path p od) = Some (File (WebP img' q))
    ∧ size img' = (mw, nh)
    ∧ scaled_height mw (size img).1 (size img).2 = Ret nh
    ∧ 1 ≤ mw ∧ 1 ≤ nh.
Proof.
  intros Hd Hgt Hrun.
  destruct (optimize_image_true lanczos p od mw q w w' Hrun)
    as (img0 & img' & Hd0 & Hr & _ & _ & Hfs).
  rewrite Hd in Hd0. injection Hd0 as <-.
  destruct (resized_wider lanczos (normalise img) mw img') as (nh & Hh & Hmw & Hnh & Hsz);
    [by rewrite normalise_size | done |].
  rewrite normalise_size in Hh.
  exists img', nh. split; [| done].
  rewrite Hfs, node_at_insert by apply output_path_nonempty.
  by rewrite decide_True.
Qed.

Lemma wider_image_dimensions_witness :
  let p := ["in"; "b.JPG"] in
  let img := solid (1200, 800) (4, 5, 6) in
  ∃ w',
    decode (node_at (fs batch_world) p) = Ret img
    ∧ (size img).1 > 300
    ∧ optimize_image nearest p None 300 85 batch_world = (Ret true, w')
    ∧ ∃ img' nh,
        node_at (fs w') (output_path p None) = Some (File (WebP img' 85))
        ∧ size img' = (300, nh)
        ∧ scaled_height 300 (size img).1 (size img).2 = Ret nh
        ∧ 1 ≤ 300 ∧ 1 ≤ nh.
Proof.
  intros p img.
  set (run := optimize_image nearest p None 300 85 batch_world).
  assert (H1 : decode (node_at (fs batch_world) p) = Ret img) by reflexivity.
  assert (H2 : (size img).1 > 300) by reflexivity.
  assert (H3 : run = (Ret true, run.2)).
  { rewrite (surjective_pairing run) at 1. f_equal; by vm_compute. }
  exists run.2. split; [exact H1 |]. split; [exact H2 |]. split; [exact H3 |].
  exact (wider_image_dimensions nearest p None 300 85 batch_world run.2 img H1 H2 H3).
Defined.
